(** * The tutorial content pipeline of src/components/Tutorial.js

    A shallow embedding of the [Tutorial] component: the validator, the two
    project-state initialisers, the step assembler ([swapCodeBlocks],
    [gatherSteps]) and the section assembler ([gatherSections]).

    JavaScript [Map] objects are mutable and passed by reference, so the
    embedding keeps a store of Map objects and threads it through a small
    state-and-exception monad: [new Map()] and [clone] allocate, [set]
    updates in place, [throw] leaves the store as it was at the throw. *)

From stdpp Require Import base list strings option gmap.
From Stdlib Require Import ZArith Lia.

(** ** Data model *)

(** The value stored for one file of the simulated project. *)
Module FileState.
Record t := Make { code : string; language : string }.
End FileState.

(** What [parseCodeBlockProps] returns for a code block. [fileName] is
    [None] when the block carries no file name ([undefined] in the source). *)
Module CodeBlock.
Record t := Make { code : string; fileName : option string; language : string }.
End CodeBlock.

(** A part of a line diff, as the [diff] package reports it. *)
Module Change.
Record t := Make { value : string; added : bool; removed : bool; count : nat }.
End Change.

(** A JavaScript [Map] from file names to file states: the entries in
    insertion order, keys unique. *)
Abbreviation JsMap := (list (option string * FileState.t)) (only parsing).

(** References to Map objects, and the store they live in. *)
Abbreviation ref := nat (only parsing).
Abbreviation store := (list JsMap) (only parsing).

(** The props of a [TutorialEditor] element. *)
Record EditorProps := {
  key : nat;
  focusedFileName : option string;
  diff : list Change.t;
  project : ref
}.

(** Props of an element other than [mdxType] and [children]. [attrs] are the
    props this component never looks at itself. *)
Record Props := {
  attrs : list (string * string);
  stepNumber : option nat;
  totalSteps : option nat;
  editor : option EditorProps
}.

(** A React element after [Children.toArray]: its [mdxType] prop (absent on
    elements that do not come from MDX), its other props, its children as a
    flat list. MDX wraps text in elements, so every child is an element. *)
#[warnings="-register-all"]
Inductive element :=
| Element (mdxType : option string) (props : Props) (children : list element).

Definition mdxType (e : element) : option string :=
  match e with Element t _ _ => t end.
Definition props (e : element) : Props :=
  match e with Element _ p _ => p end.
Definition children_of (e : element) : list element :=
  match e with Element _ _ c => c end.

(** [cloneElement(e, { children })] *)
Definition cloneElement_children (e : element) (children : list element) : element :=
  match e with Element t p _ => Element t p children end.

(** [cloneElement(e, { children, stepNumber, totalSteps })] *)
Definition cloneElement_step (e : element) (children : list element)
    (stepNumber totalSteps : nat) : element :=
  match e with
  | Element t p _ =>
      Element t {| attrs := attrs p; stepNumber := Some stepNumber;
                   totalSteps := Some totalSteps; editor := editor p |} children
  end.

(** [<TutorialEditor key=.. focusedFileName=.. diff=.. project=.. />] *)
Definition TutorialEditor (key : nat) (focusedFileName : option string)
    (diff : list Change.t) (project : ref) : element :=
  Element None
    {| attrs := []; stepNumber := None; totalSteps := None;
       editor := Some {| key := key; focusedFileName := focusedFileName;
                         diff := diff; project := project |} |}
    [].

(** Modelled from the spec: [isMdxType] of utils/mdx, which is not under
    src/. Nodes are typed by a discriminator string; the source itself reads
    it as [child.props.mdxType]. *)
Definition isMdxType (child : element) (type : string) : bool :=
  bool_decide (mdxType child = Some type).

(** ** Results and the store monad *)

Inductive outcome (A : Type) :=
| Return (a : A)
| Throw (msg : string).
Arguments Return {A} a.
Arguments Throw {A} msg.

Definition M (A : Type) := store -> outcome A * store.

Definition ret {A} (a : A) : M A := fun h => (Return a, h).
Definition throw {A} (msg : string) : M A := fun h => (Throw msg, h).
Definition bind {A B} (m : M A) (k : A -> M B) : M B :=
  fun h => match m h with
           | (Return a, h') => k a h'
           | (Throw msg, h') => (Throw msg, h')
           end.
Definition lift {A} (o : outcome A) : M A := fun h => (o, h).

Notation "'let*' x := m 'in' k" := (bind m (fun x => k))
  (at level 10, x name, m at level 100, k at level 200, only parsing).
Notation "'let*' ' pat := m 'in' k" := (bind m (fun x => match x with pat => k end))
  (at level 10, pat pattern, m at level 100, k at level 200, only parsing).

(** [array.reduce((acc, x, idx) => ..., init)], the callback running in [M]. *)
Fixpoint reduce {A B} (f : A -> B -> nat -> M A) (l : list B) (idx : nat) (acc : A) : M A :=
  match l with
  | [] => ret acc
  | x :: l' => let* acc' := f acc x idx in reduce f l' (S idx) acc'
  end.

(** ** Map objects *)

Module Map.
Definition has (m : JsMap) (k : option string) : bool :=
  existsb (fun e => bool_decide (e.1 = k)) m.

Fixpoint get (m : JsMap) (k : option string) : option FileState.t :=
  match m with
  | [] => None
  | (k', v) :: m' => if bool_decide (k' = k) then Some v else get m' k
  end.

(** An existing key keeps its place, a new one goes last. *)
Fixpoint set (m : JsMap) (k : option string) (v : FileState.t) : JsMap :=
  match m with
  | [] => [(k, v)]
  | (k', v') :: m' =>
      if bool_decide (k' = k) then (k', v) :: m' else (k', v') :: set m' k v
  end.

Definition keys (m : JsMap) : list (option string) := m.*1.
End Map.

(** What reading a property of [undefined] throws. *)
Definition TypeError : string := "TypeError".

(** [new Map()] *)
Definition newMap : M ref :=
  fun h => (Return (List.length h), h ++ [[]]).

(** [map.has(k)] *)
Definition Map_has (r : ref) (k : option string) : M bool :=
  fun h => match h !! r with
           | Some m => (Return (Map.has m k), h)
           | None => (Throw TypeError, h)
           end.

(** [map.get(k)], [None] standing for [undefined] *)
Definition Map_get (r : ref) (k : option string) : M (option FileState.t) :=
  fun h => match h !! r with
           | Some m => (Return (Map.get m k), h)
           | None => (Throw TypeError, h)
           end.

(** [map.set(k, v)]: updates the object in place and returns it. *)
Definition Map_set (r : ref) (k : option string) (v : FileState.t) : M ref :=
  fun h => match h !! r with
           | Some m => (Return r, <[r := Map.set m k v]> h)
           | None => (Throw TypeError, h)
           end.

(** [const clone = (map) => new Map(map)] *)
Definition clone (map : ref) : M ref :=
  fun h => match h !! map with
           | Some m => (Return (List.length h), h ++ [m])
           | None => (Throw TypeError, h)
           end.

(** ** Imported helpers *)

(** The helpers of utils/codeBlock and utils/parseCodeBlockProps are not
    under src/; the pipeline is stated over any implementation of them. *)
Class CodeBlockUtils := {
  isCodeBlock : element -> bool;
  isShellCommand : element -> bool;
  parseCodeBlockProps : element -> CodeBlock.t
}.

(** [diffLines] of the [diff] package, likewise a parameter of the pipeline. *)
Class DiffLib := {
  diffLines : string -> string -> list Change.t
}.

(** The entry a code block writes for its file. *)
Definition newState (props : CodeBlock.t) : FileState.t :=
  {| FileState.code := CodeBlock.code props;
     FileState.language := CodeBlock.language props |}.

(** [sub] occurs in [s]. *)
Definition contains (sub s : string) : Prop :=
  exists before after, s = before +:+ sub +:+ after.

Definition nl : string := String (Ascii.ascii_of_nat 10) EmptyString.

(** ** The component *)

Section Pipeline.
Context {utils : CodeBlockUtils} {lib : DiffLib}.

Definition missingFileName (props : CodeBlock.t) : string :=
  "The following block does not have a file name that matches the project. Please ensure the code block has a `fileName` specified:"
  +:+ nl +:+ nl
  +:+ "```" +:+ CodeBlock.language props +:+ nl
  +:+ CodeBlock.code props +:+ nl
  +:+ "```" +:+ nl.

(** The callback that [swapCodeBlocks] reduces with. *)
Definition swapCodeBlocks_callback (memo : list element * ref) (child : element)
    (idx : nat) : M (list element * ref) :=
  let '(children, currentProjectState) := memo in
  if negb (isCodeBlock child) || isShellCommand child then
    ret (children ++ [child], currentProjectState)
  else
    let props := parseCodeBlockProps child in
    let* known := Map_has currentProjectState (CodeBlock.fileName props) in
    if negb known then throw (missingFileName props)
    else
      let* entry := Map_get currentProjectState (CodeBlock.fileName props) in
      match entry with
      | None => throw TypeError
      | Some prev =>
          let prevCode := FileState.code prev in
          let* copy := clone currentProjectState in
          let* projectState := Map_set copy (CodeBlock.fileName props)
            {| FileState.code := CodeBlock.code props;
               FileState.language := CodeBlock.language props |} in
          ret (children ++
                  [TutorialEditor idx (CodeBlock.fileName props)
                     (diffLines prevCode (CodeBlock.code props)) projectState],
                projectState)
      end.

Definition swapCodeBlocks (stepElement : element) (initialProjectState : ref)
    : M (list element * ref) :=
  reduce swapCodeBlocks_callback (children_of stepElement) 0 ([], initialProjectState).

(** The callback of [gatherSteps]; the memo is [(steps, currentProjectState)]. *)
Definition gatherSteps_callback (memo : list element * ref) (stepElement : element)
    (idx : nat) : M (list element * ref) :=
  let '(steps, currentProjectState) := memo in
  let* '(children, projectState) := swapCodeBlocks stepElement currentProjectState in
  ret (steps ++ [cloneElement_step stepElement children (idx + 1) (List.length children)],
        projectState).

Definition gatherSteps (children : list element) (initialProjectState : ref)
    : M (list element * ref) :=
  reduce gatherSteps_callback children 0 ([], initialProjectState).

(** The callback of [gatherSections]; the memo is [(elements, currentProjectState)]. *)
Definition gatherSections_callback (memo : list element * ref) (child : element)
    (idx : nat) : M (list element * ref) :=
  let '(elements, currentProjectState) := memo in
  if isMdxType child "TutorialSection" then
    let* '(steps, projectState) := gatherSteps (children_of child) currentProjectState in
    ret (elements ++ [cloneElement_children child steps], projectState)
  else
    ret (elements ++ [child], currentProjectState).

Definition gatherSections_reduce (children : list element) (initialProjectState : ref)
    : M (list element * ref) :=
  reduce gatherSections_callback children 0 ([], initialProjectState).

Definition gatherSections (children : list element) (initialProjectState : ref)
    : M (list element) :=
  let* '(elements, _) := gatherSections_reduce children initialProjectState in
  ret elements.

Definition qualifies (child : element) : bool :=
  isCodeBlock child && negb (isShellCommand child).

Definition parseProjectStateFromConfig_callback (map : ref) (child : element)
    (idx : nat) : M ref :=
  let props := parseCodeBlockProps child in
  let* known := Map_has map (CodeBlock.fileName props) in
  if known then ret map
  else Map_set map (CodeBlock.fileName props)
         {| FileState.code := CodeBlock.code props;
            FileState.language := CodeBlock.language props |}.

Definition parseProjectStateFromConfig (configElement : element) : M ref :=
  let blocks := List.filter qualifies (children_of configElement) in
  let* map := newMap in
  reduce parseProjectStateFromConfig_callback blocks 0 map.

Definition findCodeBlocksInTutorialStep (stepElement : element) : list element :=
  List.filter qualifies (children_of stepElement).

Definition findCodeBlocksInTutorialSection (sectionElement : element) : list element :=
  flat_map findCodeBlocksInTutorialStep (children_of sectionElement).

Definition codeBlocksOfChild (child : element) : list element :=
  if bool_decide (mdxType child = Some "TutorialStep") then
    findCodeBlocksInTutorialStep child
  else if bool_decide (mdxType child = Some "TutorialSection") then
    findCodeBlocksInTutorialSection child
  else [].

Definition parseProjectStateFromChildren_callback (map : ref) (codeBlock : element)
    (idx : nat) : M ref :=
  let props := parseCodeBlockProps codeBlock in
  let* known := Map_has map (CodeBlock.fileName props) in
  if known then ret map
  else Map_set map (CodeBlock.fileName props)
         {| FileState.code := ""; FileState.language := CodeBlock.language props |}.

Definition parseProjectStateFromChildren (children : list element) : M ref :=
  let blocks := flat_map codeBlocksOfChild children in
  let* map := newMap in
  reduce parseProjectStateFromChildren_callback blocks 0 map.
End Pipeline.

(** *** What the two initialisers compute, as functions on Map values *)

(** The entry an inferred project starts a file with. *)
Definition emptyState (props : CodeBlock.t) : FileState.t :=
  {| FileState.code := ""; FileState.language := CodeBlock.language props |}.

(** [map.has(fileName) ? map : map.set(fileName, entry)] on the Map's value. *)
Definition addIfNew {utils : CodeBlockUtils} (entry : CodeBlock.t -> FileState.t)
    (m : JsMap) (child : element) : JsMap :=
  let props := parseCodeBlockProps child in
  if Map.has m (CodeBlock.fileName props) then m
  else Map.set m (CodeBlock.fileName props) (entry props).

Definition firstWins {utils : CodeBlockUtils} (entry : CodeBlock.t -> FileState.t)
    (blocks : list element) (m : JsMap) : JsMap :=
  fold_left (addIfNew entry) blocks m.

(** The first block, in the order of the list, that names file [k]. *)
Definition firstBlock {utils : CodeBlockUtils} (k : option string)
    (blocks : list element) : option element :=
  List.find (fun child => bool_decide (CodeBlock.fileName (parseCodeBlockProps child) = k)) blocks.

(** The names of a list in the order of their first occurrence. *)
Fixpoint firstOccurrences (names : list (option string)) : list (option string) :=
  match names with
  | [] => []
  | k :: names' =>
      k :: List.filter (fun k' => negb (bool_decide (k' = k))) (firstOccurrences names')
  end.

(** *** The code blocks of a tutorial in document order, after the claim's words *)

(** The non-shell code blocks among the children of one step, in order. *)
Definition stepCodeBlocks {utils : CodeBlockUtils} (stepElement : element) : list element :=
  List.filter (fun child => isCodeBlock child && negb (isShellCommand child))
    (children_of stepElement).

(** All step and section code blocks in document order: going through the
    top-level children from first to last, a [TutorialStep] gives its own
    code blocks, a [TutorialSection] gives the code blocks of its children
    one child after the other, and any other child gives none. *)
Fixpoint documentOrderBlocks {utils : CodeBlockUtils} (children : list element)
    : list element :=
  match children with
  | [] => []
  | child :: rest =>
      match mdxType child with
      | Some type =>
          if String.eqb type "TutorialStep" then
            stepCodeBlocks child ++ documentOrderBlocks rest
          else if String.eqb type "TutorialSection" then
            List.concat (List.map stepCodeBlocks (children_of child))
              ++ documentOrderBlocks rest
          else documentOrderBlocks rest
      | None => documentOrderBlocks rest
      end
  end.

(** What a run leaves behind for the next one: the ProjectState it ends in
    (or the error) and the store. *)
Definition stateOf (run : outcome (list element * ref) * store) : outcome ref * store :=
  (match run.1 with
   | Return (_, projectState) => Return projectState
   | Throw msg => Throw msg
   end, run.2).

(** The elements a render assembles as steps: the children of the sections
    when there is a section, the children themselves otherwise. *)
Definition assembledSteps (isSectioned : bool) (children : list element) : list element :=
  if isSectioned then
    flat_map children_of
      (List.filter (fun child => isMdxType child "TutorialSection") children)
  else children.

(** ** The validator *)

Definition projectNotFirst : string :=
  "Tutorial: A `Project` element was detected but does not reside as the first child of the `Tutorial`. Please move it to the first child of the `Tutorial`.".

Definition stepOutsideSection : string :=
  "Tutorial: A `TutorialStep` was detected outside of a `TutorialSection`. Please ensure the element is wrapped in a `TutorialSection`.".

Definition childNotStep : string :=
  "Tutorial: Every child of a `Tutorial` must be wrapped in a `TutorialStep`. If you meant to include a non `TutorialStep` in the `Tutorial`, wrap each section in a `TutorialSection` or move the content inside of the `TutorialStep`.".

(** [array.findIndex(p)]: the first index where [p] holds, [-1] if none. *)
Fixpoint findIndex {A} (p : A -> bool) (l : list A) : Z :=
  match l with
  | [] => (-1)%Z
  | x :: l' =>
      if p x then 0%Z
      else let i := findIndex p l' in if (i <? 0)%Z then (-1)%Z else (i + 1)%Z
  end.

Definition validateSections (children : list element) : outcome unit :=
  let isValid := forallb (fun child => negb (isMdxType child "TutorialStep")) children in
  if negb isValid then Throw stepOutsideSection else Return tt.

Definition validateTutorialSteps (children : list element) : outcome unit :=
  let isValid := forallb (fun child => isMdxType child "TutorialStep") children in
  if negb isValid then Throw childNotStep else Return tt.

Definition validateChildren (children : list element) : outcome unit :=
  let isSectioned := existsb (fun child => isMdxType child "TutorialSection") children in
  let projectElementIdx := findIndex (fun child => isMdxType child "Project") children in
  if (projectElementIdx >? 0)%Z then Throw projectNotFirst
  else
    let children := drop 1 children in
    if isSectioned then validateSections children else validateTutorialSteps children.

(** Modelled from the spec: [useOnMount] of hooks/useOnMount, which is not
    under src/. The spec's control flow is normalize, validate, assemble, and
    a violation aborts the whole assembly: the callback runs where the hook
    is called, and what it throws is thrown by the render. *)
Definition useOnMount (fn : unit -> outcome unit) : M unit := lift (fn tt).

Section Render.
Context {utils : CodeBlockUtils} {lib : DiffLib}.

(** [children[0]] of an empty array is [undefined], which is no [Project]. *)
Definition Tutorial (children : list element) : M (list element) :=
  let* _ := useOnMount (fun _ => validateChildren children) in
  let isSectioned := existsb (fun child => isMdxType child "TutorialSection") children in
  let projectElement :=
    match children with
    | first :: _ => if isMdxType first "Project" then Some first else None
    | [] => None
    end in
  let children :=
    match projectElement with
    | Some _ => drop 1 children
    | None => children
    end in
  let* initialProjectState :=
    match projectElement with
    | Some configElement => parseProjectStateFromConfig configElement
    | None => parseProjectStateFromChildren children
    end in
  if isSectioned then gatherSections children initialProjectState
  else
    let* '(steps, _) := gatherSteps children initialProjectState in
    ret steps.
End Render.

(** The children a render works on: all but a leading [Project]. *)
Definition withoutProject (children : list element) : list element :=
  match children with
  | first :: rest => if isMdxType first "Project" then rest else children
  | [] => []
  end.

(** The value of the Map a render starts from: read from a leading
    [Project], inferred from the code blocks otherwise. *)
Definition initialProjectMap {utils : CodeBlockUtils} (children : list element)
    : list (option string * FileState.t) :=
  match children with
  | first :: _ =>
      if isMdxType first "Project" then
        firstWins newState (List.filter qualifies (children_of first)) []
      else firstWins emptyState (flat_map codeBlocksOfChild children) []
  | [] => firstWins emptyState (flat_map codeBlocksOfChild children) []
  end.

(** ** A line diff *)

(** Modelled from the spec: [diffLines] belongs to the [diff] package, which
    is not under src/. The spec describes a line-level diff between the
    file's previous code and the block's new code, showing what is removed
    and what is added. The model splits both texts into lines, takes a
    shortest edit script that keeps common lines, and reports runs of kept,
    removed and added lines as parts; in a replaced line the removal comes
    first. *)
Module LineDiff.
Definition isNewline (c : Ascii.ascii) : bool := Ascii.eqb c (Ascii.ascii_of_nat 10).

(** The lines of a text, each with its line terminator. *)
Fixpoint lines (s : string) : list string :=
  match s with
  | EmptyString => []
  | String c s' =>
      if isNewline c then String c EmptyString :: lines s'
      else match lines s' with
           | [] => [String c EmptyString]
           | l :: ls => String c l :: ls
           end
  end.

Inductive op := Keep | Remove | Add.

Definition edits (script : list (op * string)) : nat :=
  List.length (List.filter (fun e => match e.1 with Keep => false | _ => true end) script).

Fixpoint editScript (old : list string) : list string -> list (op * string) :=
  fix inner (new : list string) : list (op * string) :=
    match old, new with
    | [], _ => List.map (pair Add) new
    | _, [] => List.map (pair Remove) old
    | x :: old', y :: new' =>
        if String.eqb x y then (Keep, x) :: editScript old' new'
        else
          let removal := (Remove, x) :: editScript old' new in
          let addition := (Add, y) :: inner new' in
          if edits removal <=? edits addition then removal else addition
    end.

Definition part (o : op) (v : string) (n : nat) : Change.t :=
  {| Change.value := v;
     Change.added := match o with Add => true | _ => false end;
     Change.removed := match o with Remove => true | _ => false end;
     Change.count := n |}.

Definition sameKind (o : op) (c : Change.t) : bool :=
  match o with
  | Keep => negb (Change.added c) && negb (Change.removed c)
  | Remove => Change.removed c
  | Add => Change.added c
  end.

(** Consecutive lines of one kind form one part. *)
Fixpoint parts (script : list (op * string)) : list Change.t :=
  match script with
  | [] => []
  | (o, v) :: script' =>
      match parts script' with
      | c :: cs =>
          if sameKind o c then part o (v +:+ Change.value c) (S (Change.count c)) :: cs
          else part o v 1 :: c :: cs
      | [] => [part o v 1]
      end
  end.

Definition diffLines (oldStr newStr : string) : list Change.t :=
  parts (editScript (lines oldStr) (lines newStr)).
End LineDiff.

Definition lineDiff : DiffLib := {| diffLines := LineDiff.diffLines |}.


(** ** A code-block reader *)

(** Modelled from the spec: the helpers of utils/codeBlock and
    utils/parseCodeBlockProps, which are not under src/. A code block is a
    node of type [pre] that exposes parsed code, language and fileName
    properties; a shell command is a code block in the shell language. *)
Module MdxCodeBlock.
Fixpoint prop (name : string) (attrs : list (string * string)) : option string :=
  match attrs with
  | [] => None
  | (k, v) :: attrs' => if String.eqb k name then Some v else prop name attrs'
  end.

Definition parseCodeBlockProps (e : element) : CodeBlock.t :=
  {| CodeBlock.code := default "" (prop "code" (attrs (props e)));
     CodeBlock.fileName := prop "fileName" (attrs (props e));
     CodeBlock.language := default "" (prop "language" (attrs (props e))) |}.

Definition isCodeBlock (e : element) : bool := isMdxType e "pre".

Definition isShellCommand (e : element) : bool :=
  String.eqb (CodeBlock.language (parseCodeBlockProps e)) "shell".
End MdxCodeBlock.

Definition mdxCodeBlock : CodeBlockUtils := {|
  isCodeBlock := MdxCodeBlock.isCodeBlock;
  isShellCommand := MdxCodeBlock.isShellCommand;
  parseCodeBlockProps := MdxCodeBlock.parseCodeBlockProps
|}.

(** ** Sample content *)

Module Sample.
Definition plain (attrs : list (string * string)) : Props :=
  {| attrs := attrs; stepNumber := None; totalSteps := None; editor := None |}.

Definition codeBlock (fileName language code : string) : element :=
  Element (Some "pre")
    (plain [("fileName", fileName); ("language", language); ("code", code)]) [].

Definition shell (code : string) : element :=
  Element (Some "pre") (plain [("language", "shell"); ("code", code)]) [].

Definition text (t : string) : element :=
  Element (Some "p") (plain [("text", t)]) [].

Definition Project (children : list element) : element :=
  Element (Some "Project") (plain []) children.

Definition TutorialStep (children : list element) : element :=
  Element (Some "TutorialStep") (plain []) children.

Definition TutorialSection (children : list element) : element :=
  Element (Some "TutorialSection") (plain []) children.

(** A store holding one project where index.js is [a]. *)
Definition oneFile : list JsMap :=
  [[(Some "index.js", {| FileState.code := "a"; FileState.language := "js" |})]].

(** Two steps that rewrite index.js one after the other. *)
Definition twoSteps : list element :=
  [ TutorialStep [codeBlock "index.js" "js" "b"];
    TutorialStep [text "Again"; codeBlock "index.js" "js" "c"; shell "npm start"] ].

(** A sectioned tutorial with text between its sections. *)
Definition sectioned : list element :=
  [ text "Before";
    TutorialSection [TutorialStep [codeBlock "index.js" "js" "b"]];
    text "Between";
    TutorialSection [TutorialStep [codeBlock "index.js" "js" "c"]] ].

(** A bare step after a section. *)
Definition stepAfterSection : list element :=
  [ TutorialSection []; TutorialStep [] ].

(** A step outside any section, behind a misplaced [Project]. *)
Definition misplacedProject : list element :=
  [ TutorialSection []; Project []; TutorialStep [] ].

(** A bare step in front of a section. *)
Definition stepBeforeSection : list element :=
  [ TutorialStep []; TutorialSection [] ].

(** The example of the spec: the project defines index.js as [a], the
    first step rewrites it to [b]. *)
Definition example : list element :=
  [ Project [codeBlock "index.js" "js" "a"];
    TutorialStep [codeBlock "index.js" "js" "b"] ].
End Sample.

(** * Search presets and navigation *)

(** ** The search presets *)

Module SearchPresets.
(** The front matter of a page; a key that is missing is [None]. *)
Record frontmatter := {
  title : option string;
  description : option string;
  tags : option (list string)
}.

(** The parameters a preset hands to the search client. *)
Record params := {
  q : option string;
  search_fields : option (list (string * list string))
}.

(** What a template literal prints for a value that may be [undefined]. *)
Definition interpolate (value : option string) : string :=
  default "undefined" value.

(** [array.join(separator)] on an array of strings. *)
Fixpoint join (separator : string) (items : list string) : string :=
  match items with
  | [] => ""
  | [item] => item
  | item :: items' => item +:+ separator +:+ join separator items'
  end.

Definition titleOnly (page : frontmatter) : params :=
  {| q := title page; search_fields := None |}.

Definition descriptionOnly (page : frontmatter) : params :=
  {| q := description page; search_fields := None |}.

Definition titleAndDescription (page : frontmatter) : params :=
  {| q := Some (interpolate (title page) +:+ " " +:+ interpolate (description page));
     search_fields := None |}.

Definition tags__OR (page : frontmatter) : params :=
  {| q := Some (join " OR " (default [] (tags page))); search_fields := None |}.

Definition tags__AND (page : frontmatter) : params :=
  {| q := Some (join " AND " (default [] (tags page))); search_fields := None |}.

Definition titleWithWeightsBody (page : frontmatter) : params :=
  {| q := title page; search_fields := Some [("page", ["body^10"])] |}.

Definition titleWithWeightsTitle (page : frontmatter) : params :=
  {| q := title page; search_fields := Some [("page", ["title^10"])] |}.
End SearchPresets.

(** ** The navigation tree *)

Module Navigation.
(** An entry of the side navigation data. *)
#[warnings="-register-all"]
Inductive page :=
| Page (displayName : string) (url : option string) (group : option string)
       (children : option (list page)).

Definition displayName (p : page) : string :=
  match p with Page n _ _ _ => n end.
Definition group (p : page) : option string :=
  match p with Page _ _ g _ => g end.

(** [const { group = '' } = page] *)
Definition groupOf (p : page) : string := default "" (group p).

(** The property names every object inherits from [Object.prototype]. Read
    on an object that has no such property of its own, they give a function
    or an object, never [undefined]. *)
Definition inheritedNames : list string :=
  [ "constructor"; "hasOwnProperty"; "isPrototypeOf"; "propertyIsEnumerable";
    "toLocaleString"; "toString"; "valueOf"; "__proto__";
    "__defineGetter__"; "__defineSetter__"; "__lookupGetter__"; "__lookupSetter__" ].

Definition inherited (name : string) : bool :=
  bool_decide (name ∈ inheritedNames).

(** The callback of the grouping reduce:
    [{ ...groups, [group]: [...(groups[group] || []), page] }].
    The object is kept as a finite map from its own property names to their
    values; the order of its entries is not represented. Spreading what an
    inherited name gives is a [TypeError]. *)
Definition groupedPages_callback (groups : gmap string (list page)) (p : page)
    : outcome (gmap string (list page)) :=
  match groups !! groupOf p with
  | Some members => Return (<[groupOf p := members ++ [p]]> groups)
  | None =>
      if inherited (groupOf p) then Throw TypeError
      else Return (<[groupOf p := [p]]> groups)
  end.

Fixpoint groupedPages_from (groups : gmap string (list page)) (pages : list page)
    : outcome (gmap string (list page)) :=
  match pages with
  | [] => Return groups
  | p :: pages' =>
      match groupedPages_callback groups p with
      | Return groups' => groupedPages_from groups' pages'
      | Throw msg => Throw msg
      end
  end.

(** [pages.reduce(..., {})] *)
Definition groupedPages (pages : list page) : outcome (gmap string (list page)) :=
  groupedPages_from ∅ pages.

(** [crumbs.length === 0 && depthLevel === 0] *)
Definition isHomePage (crumbs : list string) (depthLevel : nat) : bool :=
  (List.length crumbs =? 0) && (depthLevel =? 0).

(** The initial value of [isExpanded]:
    [isHomePage || crumbs.includes(page.displayName)]. *)
Definition initiallyExpanded (crumbs : list string) (depthLevel : nat) (p : page) : bool :=
  isHomePage crumbs depthLevel || existsb (String.eqb (displayName p)) crumbs.

(** [crumbs[crumbs.length - 1] === page.displayName] *)
Definition isCurrentPage (crumbs : list string) (p : page) : bool :=
  match last crumbs with
  | Some crumb => String.eqb crumb (displayName p)
  | None => false
  end.

(** [const filterPages = (pages, _searchTerm) => pages] *)
Definition filterPages (pages : list page) (searchTerm : string) : list page := pages.
End Navigation.

(** * Properties *)

(** ** Map objects *)

Lemma Map_has_get (m : JsMap) (k : option string) :
  Map.has m k = true <-> is_Some (Map.get m k).
Proof.
  induction m as [|[k' v] m IH]; simpl.
  - split; [discriminate | intros [x Hx]; discriminate].
  - destruct (bool_decide (k' = k)); simpl.
    + split; eauto.
    + exact IH.
Qed.

Lemma Map_has_false_get (m : JsMap) (k : option string) :
  Map.has m k = false <-> Map.get m k = None.
Proof.
  rewrite <- not_true_iff_false, Map_has_get, <- eq_None_not_Some. reflexivity.
Qed.

Lemma Map_get_set_eq (m : JsMap) (k : option string) (v : FileState.t) :
  Map.get (Map.set m k v) k = Some v.
Proof.
  induction m as [|[k' v'] m IH]; simpl.
  - rewrite bool_decide_eq_true_2; reflexivity.
  - destruct (bool_decide (k' = k)) eqn:E; simpl; rewrite E; auto.
Qed.

Lemma Map_get_set_ne (m : JsMap) (k k' : option string) (v : FileState.t) :
  k <> k' -> Map.get (Map.set m k v) k' = Map.get m k'.
Proof.
  intros Hne. induction m as [|[k0 v0] m IH]; simpl.
  - rewrite bool_decide_eq_false_2; auto.
  - destruct (bool_decide (k0 = k)) eqn:E; simpl.
    + apply bool_decide_eq_true in E. subst k0.
      rewrite !bool_decide_eq_false_2; auto.
    + destruct (bool_decide (k0 = k')); auto.
Qed.

Lemma Map_set_new (m : JsMap) (k : option string) (v : FileState.t) :
  Map.has m k = false -> Map.set m k v = m ++ [(k, v)].
Proof.
  induction m as [|[k' v'] m IH]; simpl; [reflexivity|].
  destruct (bool_decide (k' = k)); simpl; [discriminate|].
  intros Hm. rewrite IH; auto.
Qed.

Lemma Map_keys_set_known (m : JsMap) (k : option string) (v : FileState.t) :
  Map.has m k = true -> Map.keys (Map.set m k v) = Map.keys m.
Proof.
  unfold Map.keys. induction m as [|[k' v'] m IH]; simpl; [discriminate|].
  destruct (bool_decide (k' = k)); simpl; [reflexivity|].
  intros Hm. f_equal. apply IH, Hm.
Qed.

Lemma Map_has_keys (m : JsMap) (k : option string) :
  Map.has m k = true <-> k ∈ Map.keys m.
Proof.
  unfold Map.keys. induction m as [|[k' v] m IH]; simpl.
  - split; [discriminate | intros Hin; inversion Hin].
  - rewrite elem_of_cons, <- IH.
    destruct (bool_decide (k' = k)) eqn:E; simpl.
    + apply bool_decide_eq_true in E. split; auto.
    + apply bool_decide_eq_false in E.
      split; [auto | intros [->|]; [contradiction|auto]].
Qed.

(** ** The store *)

Lemma store_lookup_fresh (h : store) (m : JsMap) :
  (h ++ [m]) !! List.length h = Some m.
Proof. apply list_lookup_middle. reflexivity. Qed.

Lemma store_insert_fresh (h : store) (m m' : JsMap) :
  <[List.length h := m']> (h ++ [m]) = h ++ [m'].
Proof.
  replace (List.length h) with (List.length h + 0) by lia.
  rewrite insert_app_r. reflexivity.
Qed.

Lemma store_lookup_old (h ext : store) (r : ref) (m : JsMap) :
  h !! r = Some m -> (h ++ ext) !! r = Some m.
Proof. apply lookup_app_l_Some. Qed.

(** [reduce] over a concatenation runs the first part, then the second. *)
Lemma reduce_app {A B} (f : A -> B -> nat -> M A) (l1 l2 : list B) (idx : nat) (acc : A) (h : store) :
  reduce f (l1 ++ l2) idx acc h =
  match reduce f l1 idx acc h with
  | (Return acc', h') => reduce f l2 (idx + List.length l1) acc' h'
  | (Throw msg, h') => (Throw msg, h')
  end.
Proof.
  revert idx acc h. induction l1 as [|x l1 IH]; intros idx acc h; simpl.
  - unfold ret. f_equal. lia.
  - unfold bind. destruct (f acc x idx h) as [[acc'|msg] h']; [|reflexivity].
    rewrite IH. replace (S idx + List.length l1) with (idx + S (List.length l1)) by lia.
    reflexivity.
Qed.

Lemma reduce_cons {A B} (f : A -> B -> nat -> M A) (x : B) (l : list B) (idx : nat) (acc : A) (h : store) :
  reduce f (x :: l) idx acc h =
  match f acc x idx h with
  | (Return acc', h') => reduce f l (S idx) acc' h'
  | (Throw msg, h') => (Throw msg, h')
  end.
Proof. reflexivity. Qed.

(** A callback that only ever extends the store makes [reduce] do the same. *)
Lemma reduce_prefix {A B} (f : A -> B -> nat -> M A) :
  (forall acc x idx h, h `prefix_of` (f acc x idx h).2) ->
  forall l idx acc h, h `prefix_of` (reduce f l idx acc h).2.
Proof.
  intros Hf l. induction l as [|x l IH]; intros idx acc h; simpl.
  - reflexivity.
  - unfold bind. specialize (Hf acc x idx h).
    destruct (f acc x idx h) as [[acc'|msg] h']; simpl in *; [|exact Hf].
    etrans; [exact Hf | apply IH].
Qed.

(** ** The step assembler *)

Section StepAssembler.
Context {utils : CodeBlockUtils} {lib : DiffLib}.

(** A child that is no code block, or a shell command, passes through. *)
Lemma swapCodeBlocks_callback_passthrough children cur child idx h :
  negb (isCodeBlock child) || isShellCommand child = true ->
  swapCodeBlocks_callback (children, cur) child idx h =
  (Return (children ++ [child], cur), h).
Proof. intros Hq. unfold swapCodeBlocks_callback. rewrite Hq. reflexivity. Qed.

(** A qualifying block whose file is unknown throws, the store untouched. *)
Lemma swapCodeBlocks_callback_missing children cur child idx h m :
  isCodeBlock child = true -> isShellCommand child = false ->
  h !! cur = Some m ->
  Map.has m (CodeBlock.fileName (parseCodeBlockProps child)) = false ->
  swapCodeBlocks_callback (children, cur) child idx h =
  (Throw (missingFileName (parseCodeBlockProps child)), h).
Proof.
  intros Hc Hs Hcur Hhas. unfold swapCodeBlocks_callback.
  rewrite Hc, Hs. simpl. unfold bind, Map_has. rewrite Hcur, Hhas. reflexivity.
Qed.

(** A qualifying block whose file is known is replaced by an editor, and
    the state moves to a fresh copy with that file's entry replaced. *)
Lemma swapCodeBlocks_callback_known children cur child idx h m prev :
  isCodeBlock child = true -> isShellCommand child = false ->
  h !! cur = Some m ->
  Map.get m (CodeBlock.fileName (parseCodeBlockProps child)) = Some prev ->
  swapCodeBlocks_callback (children, cur) child idx h =
  (Return (children ++
             [TutorialEditor idx (CodeBlock.fileName (parseCodeBlockProps child))
                (diffLines (FileState.code prev) (CodeBlock.code (parseCodeBlockProps child)))
                (List.length h)],
           List.length h),
   h ++ [Map.set m (CodeBlock.fileName (parseCodeBlockProps child))
           (newState (parseCodeBlockProps child))]).
Proof.
  intros Hc Hs Hcur Hget. unfold swapCodeBlocks_callback.
  rewrite Hc, Hs. simpl. unfold bind, Map_has, Map_get, clone, Map_set.
  rewrite Hcur.
  assert (Hhas : Map.has m (CodeBlock.fileName (parseCodeBlockProps child)) = true)
    by (apply Map_has_get; eauto).
  rewrite Hhas. simpl. rewrite Hcur, Hget. simpl.
  rewrite Hcur, store_lookup_fresh, store_insert_fresh.
  reflexivity.
Qed.

(** The three cases above are all there is, as long as the state exists. *)
Lemma swapCodeBlocks_callback_cases (children : list element) (cur : ref)
    (child : element) (idx : nat) (h : store) (m : JsMap) :
  h !! cur = Some m ->
  (negb (isCodeBlock child) || isShellCommand child = true) \/
  (isCodeBlock child = true /\ isShellCommand child = false /\
   Map.has m (CodeBlock.fileName (parseCodeBlockProps child)) = false) \/
  (isCodeBlock child = true /\ isShellCommand child = false /\
   exists prev, Map.get m (CodeBlock.fileName (parseCodeBlockProps child)) = Some prev).
Proof.
  intros _. destruct (isCodeBlock child), (isShellCommand child); simpl; auto.
  destruct (Map.has m (CodeBlock.fileName (parseCodeBlockProps child))) eqn:E; auto.
  apply Map_has_get in E as [prev Hprev]. eauto 10.
Qed.

Lemma swapCodeBlocks_callback_prefix memo child idx h :
  h `prefix_of` (swapCodeBlocks_callback memo child idx h).2.
Proof.
  destruct memo as [children cur].
  destruct (h !! cur) as [m|] eqn:Hcur.
  - destruct (swapCodeBlocks_callback_cases children cur child idx h m Hcur)
      as [Hp|[(Hc & Hs & Hm)|(Hc & Hs & prev & Hm)]].
    + rewrite swapCodeBlocks_callback_passthrough by assumption. reflexivity.
    + erewrite swapCodeBlocks_callback_missing by eassumption. reflexivity.
    + erewrite swapCodeBlocks_callback_known by eassumption. simpl.
      apply prefix_app_r. reflexivity.
  - unfold swapCodeBlocks_callback.
    destruct (negb (isCodeBlock child) || isShellCommand child); [reflexivity|].
    cbv beta zeta. unfold bind at 1. unfold Map_has. rewrite Hcur. reflexivity.
Qed.

Lemma swapCodeBlocks_prefix stepElement r h :
  h `prefix_of` (swapCodeBlocks stepElement r h).2.
Proof. apply reduce_prefix, swapCodeBlocks_callback_prefix. Qed.
End StepAssembler.

(** ** The line diff on equal texts *)




(** ** Claims about the step assembler *)

(** C8: a successful substitution of a code block is copy-on-write. The
    state moves to a Map object that did not exist before; that object is
    the previous one with the block's file mapped to the new code and
    language, the entry of every other file and the order of the files as
    they were; and every Map object of the store before the step,
    the previous state among them, is still what it was. *)
Theorem swapCodeBlocks_copy_on_write {utils : CodeBlockUtils} {lib : DiffLib}
    (children : list element) (cur : ref) (child : element) (idx : nat)
    (h : store) (out : list element) (next : ref) (h' : store) :
  isCodeBlock child = true -> isShellCommand child = false ->
  swapCodeBlocks_callback (children, cur) child idx h = (Return (out, next), h') ->
  exists prev : JsMap,
    h !! cur = Some prev /\
    h !! next = None /\
    h' !! next = Some (Map.set prev (CodeBlock.fileName (parseCodeBlockProps child))
                         (newState (parseCodeBlockProps child))) /\
    Map.get (Map.set prev (CodeBlock.fileName (parseCodeBlockProps child))
               (newState (parseCodeBlockProps child)))
            (CodeBlock.fileName (parseCodeBlockProps child))
      = Some (newState (parseCodeBlockProps child)) /\
    (forall k, k <> CodeBlock.fileName (parseCodeBlockProps child) ->
       Map.get (Map.set prev (CodeBlock.fileName (parseCodeBlockProps child))
                  (newState (parseCodeBlockProps child))) k = Map.get prev k) /\
    Map.keys (Map.set prev (CodeBlock.fileName (parseCodeBlockProps child))
                (newState (parseCodeBlockProps child))) = Map.keys prev /\
    (forall r m, h !! r = Some m -> h' !! r = Some m).
Proof.
  intros Hc Hs Hrun.
  destruct (h !! cur) as [prev|] eqn:Hcur.
  - destruct (swapCodeBlocks_callback_cases children cur child idx h prev Hcur)
      as [Hp|[(_ & _ & Hm)|(_ & _ & old & Hm)]].
    + rewrite Hc, Hs in Hp. discriminate.
    + erewrite swapCodeBlocks_callback_missing in Hrun by eassumption. discriminate.
    + erewrite swapCodeBlocks_callback_known in Hrun by eassumption.
      inversion Hrun; subst. exists prev. repeat split.
      * apply lookup_ge_None. lia.
      * apply store_lookup_fresh.
      * apply Map_get_set_eq.
      * intros k Hk. apply Map_get_set_ne. congruence.
      * apply Map_keys_set_known, Map_has_get. eauto.
      * intros r m. apply store_lookup_old.
  - exfalso. unfold swapCodeBlocks_callback in Hrun. rewrite Hc, Hs in Hrun.
    simpl in Hrun. unfold bind at 1 in Hrun. unfold Map_has in Hrun.
    rewrite Hcur in Hrun. discriminate.
Qed.

Lemma swapCodeBlocks_copy_on_write_witness :
  exists prev : JsMap,
    Sample.oneFile !! 0 = Some prev /\
    Sample.oneFile !! 1 = None /\
    (Sample.oneFile ++
       [[(Some "index.js", {| FileState.code := "b"; FileState.language := "js" |})]]) !! 1
      = Some (Map.set prev (Some "index.js")
                {| FileState.code := "b"; FileState.language := "js" |}).
Proof.
  destruct (swapCodeBlocks_copy_on_write (utils := mdxCodeBlock) (lib := lineDiff)
              [] 0 (Sample.codeBlock "index.js" "js" "b") 0 Sample.oneFile
              _ 1 _ eq_refl eq_refl eq_refl)
    as (prev & H0 & H1 & H2 & _).
  exists prev. repeat split; assumption.
Defined.




Lemma append_assoc (a b c : string) : (a +:+ b) +:+ c = a +:+ b +:+ c.
Proof.
  induction a as [|x a IH]; [reflexivity|].
  change (String x ((a +:+ b) +:+ c) = String x (a +:+ b +:+ c)).
  rewrite IH. reflexivity.
Qed.

Lemma missingFileName_code (props : CodeBlock.t) :
  contains (CodeBlock.code props) (missingFileName props).
Proof.
  exists ("The following block does not have a file name that matches the project. Please ensure the code block has a `fileName` specified:"
          +:+ nl +:+ nl +:+ "```" +:+ CodeBlock.language props +:+ nl),
         (nl +:+ "```" +:+ nl).
  unfold missingFileName. rewrite !append_assoc. reflexivity.
Qed.

Lemma missingFileName_language (props : CodeBlock.t) :
  contains (CodeBlock.language props) (missingFileName props).
Proof.
  exists ("The following block does not have a file name that matches the project. Please ensure the code block has a `fileName` specified:"
          +:+ nl +:+ nl +:+ "```"),
         (nl +:+ CodeBlock.code props +:+ nl +:+ "```" +:+ nl).
  reflexivity.
Qed.

(** C1: when [swapCodeBlocks] reaches a child that is a non-shell code block
    whose file name is not in the current ProjectState, it throws. The
    callback throws without touching the store, so the store at the throw is
    the store in which the child was reached; every Map object that was
    passed in, the initial ProjectState among them, is as it was; and the
    message contains the block's code and its language. *)
Theorem swapCodeBlocks_unknown_file {utils : CodeBlockUtils} {lib : DiffLib}
    (stepElement : element) (initialProjectState : ref) (h : store)
    (before after : list element) (child : element)
    (children : list element) (currentProjectState : ref) (h1 : store) (m : JsMap) :
  children_of stepElement = before ++ child :: after ->
  reduce swapCodeBlocks_callback before 0 ([], initialProjectState) h
    = (Return (children, currentProjectState), h1) ->
  isCodeBlock child = true -> isShellCommand child = false ->
  h1 !! currentProjectState = Some m ->
  Map.has m (CodeBlock.fileName (parseCodeBlockProps child)) = false ->
  swapCodeBlocks_callback (children, currentProjectState) child (List.length before) h1
    = (Throw (missingFileName (parseCodeBlockProps child)), h1) /\
  swapCodeBlocks stepElement initialProjectState h
    = (Throw (missingFileName (parseCodeBlockProps child)), h1) /\
  (forall r m', h !! r = Some m' -> h1 !! r = Some m') /\
  contains (CodeBlock.code (parseCodeBlockProps child))
           (missingFileName (parseCodeBlockProps child)) /\
  contains (CodeBlock.language (parseCodeBlockProps child))
           (missingFileName (parseCodeBlockProps child)).
Proof.
  intros Hsplit Hbefore Hc Hs Hcur Hhas.
  assert (Hthrow := swapCodeBlocks_callback_missing children currentProjectState
                      child (List.length before) h1 m Hc Hs Hcur Hhas).
  split; [exact Hthrow|]. split; [|split; [|split]].
  - unfold swapCodeBlocks. rewrite Hsplit, reduce_app, Hbefore.
    cbn [reduce Nat.add]. unfold bind at 1. rewrite Hthrow. reflexivity.
  - intros r m' Hr.
    pose proof (reduce_prefix _ swapCodeBlocks_callback_prefix before 0
                  ([], initialProjectState) h) as Hpre.
    rewrite Hbefore in Hpre. simpl in Hpre.
    eapply prefix_lookup_Some; eassumption.
  - apply missingFileName_code.
  - apply missingFileName_language.
Qed.

Lemma swapCodeBlocks_unknown_file_witness :
  swapCodeBlocks (utils := mdxCodeBlock) (lib := lineDiff)
    (Sample.TutorialStep [Sample.codeBlock "index.js" "js" "b";
                          Sample.codeBlock "other.js" "js" "c"])
    0 Sample.oneFile
  = (Throw (missingFileName
              (parseCodeBlockProps (CodeBlockUtils := mdxCodeBlock)
                 (Sample.codeBlock "other.js" "js" "c"))),
     Sample.oneFile ++
       [[(Some "index.js", {| FileState.code := "b"; FileState.language := "js" |})]]).
Proof.
  refine (proj1 (proj2
    (swapCodeBlocks_unknown_file (utils := mdxCodeBlock) (lib := lineDiff)
       (Sample.TutorialStep [Sample.codeBlock "index.js" "js" "b";
                             Sample.codeBlock "other.js" "js" "c"])
       0 Sample.oneFile
       [Sample.codeBlock "index.js" "js" "b"] [] (Sample.codeBlock "other.js" "js" "c")
       _ 1 _ _ eq_refl eq_refl eq_refl eq_refl eq_refl eq_refl))).
Defined.

(** ** Steps and sections *)

Section Assembly.
Context {utils : CodeBlockUtils} {lib : DiffLib}.

Lemma gatherSteps_reduce_spec (l : list element) :
  forall (n : nat) (acc : list element) (cur : ref) (h : store)
         (steps : list element) (r' : ref) (h' : store),
    reduce gatherSteps_callback l n (acc, cur) h = (Return (steps, r'), h') ->
    exists new : list element,
      steps = acc ++ new /\ List.length new = List.length l /\
      forall (i : nat) (stepElement : element),
        l !! i = Some stepElement ->
        exists substituted before hi next hi',
          swapCodeBlocks stepElement before hi = (Return (substituted, next), hi') /\
          new !! i = Some (cloneElement_step stepElement substituted (n + i + 1)
                             (List.length substituted)).
Proof.
  induction l as [|x l IH]; intros n acc cur h steps r' h' Hrun.
  - inversion Hrun; subst. exists []. rewrite app_nil_r.
    repeat split. intros i e Hi. discriminate.
  - cbn [reduce] in Hrun. unfold bind at 1 in Hrun.
    unfold gatherSteps_callback at 1 in Hrun. unfold bind at 1 in Hrun.
    destruct (swapCodeBlocks x cur h) as [[[cs ps]|msg] h1] eqn:Hswap;
      [|discriminate].
    cbn [ret] in Hrun.
    apply IH in Hrun as (new & -> & Hlen & Hnew).
    exists (cloneElement_step x cs (n + 1) (List.length cs) :: new).
    rewrite <- app_assoc. split; [reflexivity|]. split; [simpl; lia|].
    intros [|i] e Hi; simpl in Hi.
    + inversion Hi; subst. exists cs, cur, h, ps, h1. split; [exact Hswap|].
      simpl. replace (n + 0 + 1) with (n + 1) by lia. reflexivity.
    + destruct (Hnew i e Hi) as (cs' & b & hi & nx & hi' & Hs & Hl).
      exists cs', b, hi, nx, hi'. split; [exact Hs|].
      simpl. rewrite Hl. replace (S n + i + 1) with (n + S i + 1) by lia.
      reflexivity.
Qed.

(** C4: when [gatherSteps] returns, it returns as many steps as it was
    given, in the same order: the step at position [i] is the element given
    at position [i] (same type, same other props) with [stepNumber = i + 1],
    with the children that [swapCodeBlocks] returned for it, and with
    [totalSteps] the number of those children. *)
Theorem gatherSteps_order_and_ordinals
    (children : list element) (initialProjectState : ref) (h : store)
    (steps : list element) (projectState : ref) (h' : store) :
  gatherSteps children initialProjectState h = (Return (steps, projectState), h') ->
  List.length steps = List.length children /\
  forall (i : nat) (stepElement : element),
    children !! i = Some stepElement ->
    exists (step : element) (before : ref) (hi : store) (next : ref) (hi' : store),
      steps !! i = Some step /\
      swapCodeBlocks stepElement before hi = (Return (children_of step, next), hi') /\
      mdxType step = mdxType stepElement /\
      attrs (props step) = attrs (props stepElement) /\
      editor (props step) = editor (props stepElement) /\
      stepNumber (props step) = Some (i + 1) /\
      totalSteps (props step) = Some (List.length (children_of step)).
Proof.
  intros Hrun. apply gatherSteps_reduce_spec in Hrun as (new & -> & Hlen & Hnew).
  simpl. split; [exact Hlen|].
  intros i e Hi. destruct (Hnew i e Hi) as (cs & b & hi & nx & hi' & Hs & Hl).
  exists (cloneElement_step e cs (i + 1) (List.length cs)), b, hi, nx, hi'.
  destruct e as [t p c]. simpl in *. repeat split; assumption.
Qed.

Lemma gatherSections_callback_other (elements : list element) (cur : ref)
    (child : element) (idx : nat) (h : store) :
  isMdxType child "TutorialSection" = false ->
  gatherSections_callback (elements, cur) child idx h = (Return (elements ++ [child], cur), h).
Proof. intros Hc. unfold gatherSections_callback. rewrite Hc. reflexivity. Qed.

Lemma gatherSections_callback_section (elements : list element) (cur : ref)
    (child : element) (idx : nat) (h : store) :
  isMdxType child "TutorialSection" = true ->
  gatherSections_callback (elements, cur) child idx h =
  match gatherSteps (children_of child) cur h with
  | (Return (steps, projectState), h') =>
      (Return (elements ++ [cloneElement_children child steps], projectState), h')
  | (Throw msg, h') => (Throw msg, h')
  end.
Proof.
  intros Hc. unfold gatherSections_callback. rewrite Hc. unfold bind.
  destruct (gatherSteps (children_of child) cur h) as [[[steps ps]|msg] h']; reflexivity.
Qed.

Lemma gatherSections_reduce_positions (l : list element) :
  forall (n : nat) (acc : list element) (cur : ref) (h : store)
         (out : list element) (r' : ref) (h' : store),
    reduce gatherSections_callback l n (acc, cur) h = (Return (out, r'), h') ->
    exists new : list element,
      out = acc ++ new /\ List.length new = List.length l /\
      forall (i : nat) (child : element),
        l !! i = Some child -> isMdxType child "TutorialSection" = false ->
        new !! i = Some child.
Proof.
  induction l as [|x l IH]; intros n acc cur h out r' h' Hrun.
  - inversion Hrun; subst. exists []. rewrite app_nil_r.
    repeat split. intros i c Hi. discriminate.
  - cbn [reduce] in Hrun. unfold bind at 1 in Hrun.
    destruct (gatherSections_callback (acc, cur) x n h) as [[[acc' cur']|msg] h1] eqn:Hcb;
      [|discriminate].
    apply IH in Hrun as (new & -> & Hlen & Hnew).
    unfold gatherSections_callback in Hcb.
    destruct (isMdxType x "TutorialSection") eqn:Hx.
    + unfold bind in Hcb.
      destruct (gatherSteps (children_of x) cur h) as [[[steps ps]|msg] h2];
        [|discriminate].
      inversion Hcb; subst.
      exists (cloneElement_children x steps :: new). rewrite <- app_assoc.
      split; [reflexivity|]. split; [simpl; lia|].
      intros [|i] c Hi Hc; simpl in *.
      * inversion Hi; subst. congruence.
      * eauto.
    + inversion Hcb; subst.
      exists (x :: new). rewrite <- app_assoc.
      split; [reflexivity|]. split; [simpl; lia|].
      intros [|i] c Hi Hc; simpl in *; [assumption | eauto].
Qed.

Lemma gatherSections_reduce_sections (l : list element) :
  forall (n n' : nat) (acc acc' : list element) (cur : ref) (h : store),
    stateOf (reduce gatherSections_callback l n (acc, cur) h) =
    stateOf (reduce gatherSections_callback
               (List.filter (fun child => isMdxType child "TutorialSection") l)
               n' (acc', cur) h).
Proof.
  induction l as [|x l IH]; intros n n' acc acc' cur h; [reflexivity|].
  cbn [List.filter]. destruct (isMdxType x "TutorialSection") eqn:Hx.
  - rewrite !reduce_cons, !gatherSections_callback_section by assumption.
    destruct (gatherSteps (children_of x) cur h) as [[[steps ps]|msg] h1];
      [apply IH | reflexivity].
  - rewrite reduce_cons, gatherSections_callback_other by assumption. apply IH.
Qed.

(** C10: in [gatherSections], a child that is not a [TutorialSection] is
    appended to the output as it is, and the ProjectState and the store go on
    to the next child untouched; so the output has every such child at its
    own position, and the state the pass ends in is the one that its
    sections alone give. *)
Theorem gatherSections_other_children
    (children : list element) (initialProjectState : ref) (h : store) :
  (forall (elements : list element) (cur : ref) (child : element) (idx : nat) (h0 : store),
     isMdxType child "TutorialSection" = false ->
     gatherSections_callback (elements, cur) child idx h0
       = (Return (elements ++ [child], cur), h0)) /\
  (forall (elements : list element) (h' : store),
     gatherSections children initialProjectState h = (Return elements, h') ->
     List.length elements = List.length children /\
     forall (i : nat) (child : element),
       children !! i = Some child -> isMdxType child "TutorialSection" = false ->
       elements !! i = Some child) /\
  stateOf (gatherSections_reduce children initialProjectState h) =
  stateOf (gatherSections_reduce
             (List.filter (fun child => isMdxType child "TutorialSection") children)
             initialProjectState h).
Proof.
  split; [|split].
  - intros. apply gatherSections_callback_other. assumption.
  - intros elements h' Hrun. unfold gatherSections, bind in Hrun.
    destruct (gatherSections_reduce children initialProjectState h)
      as [[[out r']|msg] h1] eqn:Hred; [|discriminate].
    inversion Hrun; subst.
    apply gatherSections_reduce_positions in Hred as (new & -> & Hlen & Hnew).
    simpl. split; [exact Hlen | exact Hnew].
  - apply gatherSections_reduce_sections.
Qed.
End Assembly.

Lemma gatherSteps_order_and_ordinals_witness :
  exists (steps : list element) (projectState : ref) (h' : store),
    gatherSteps (utils := mdxCodeBlock) (lib := lineDiff) Sample.twoSteps 0 Sample.oneFile
      = (Return (steps, projectState), h') /\
    List.length steps = List.length Sample.twoSteps /\
    stepNumber <$> (props <$> steps) = [Some 1; Some 2] /\
    totalSteps <$> (props <$> steps) = [Some 1; Some 3].
Proof.
  eexists _, _, _. split; [reflexivity|]. split; [|split; reflexivity].
  exact (proj1 (gatherSteps_order_and_ordinals (utils := mdxCodeBlock) (lib := lineDiff)
                  Sample.twoSteps 0 Sample.oneFile _ _ _ eq_refl)).
Defined.

Lemma gatherSections_other_children_witness :
  exists (elements : list element) (h' : store),
    gatherSections (utils := mdxCodeBlock) (lib := lineDiff) Sample.sectioned 0 Sample.oneFile
      = (Return elements, h') /\
    elements !! 0 = Some (Sample.text "Before") /\
    elements !! 2 = Some (Sample.text "Between").
Proof.
  eexists _, _. split; [reflexivity|].
  pose proof (proj1 (proj2
    (gatherSections_other_children (utils := mdxCodeBlock) (lib := lineDiff)
       Sample.sectioned 0 Sample.oneFile)) _ _ eq_refl) as [_ Hpos].
  split; apply Hpos; reflexivity.
Defined.

(** ** The project-state initialisers *)

Section Initialisers.
Context {utils : CodeBlockUtils}.

Lemma firstWins_get (entry : CodeBlock.t -> FileState.t) (blocks : list element) :
  forall (m : JsMap) (k : option string),
    Map.get (firstWins entry blocks m) k =
    match Map.get m k with
    | Some v => Some v
    | None => (fun child => entry (parseCodeBlockProps child)) <$> firstBlock k blocks
    end.
Proof.
  induction blocks as [|x blocks IH]; intros m k.
  - simpl. destruct (Map.get m k); reflexivity.
  - unfold firstWins. cbn [fold_left]. fold (firstWins entry blocks (addIfNew entry m x)).
    rewrite IH. unfold addIfNew, firstBlock. cbn [List.find].
    destruct (Map.has m (CodeBlock.fileName (parseCodeBlockProps x))) eqn:Hhas.
    + destruct (Map.get m k) eqn:Hk; [reflexivity|].
      rewrite bool_decide_eq_false_2; [reflexivity|].
      intros E. rewrite E in Hhas. apply Map_has_get in Hhas as [v Hv]. congruence.
    + destruct (bool_decide (CodeBlock.fileName (parseCodeBlockProps x) = k)) eqn:E.
      * apply bool_decide_eq_true in E. subst k.
        rewrite Map_get_set_eq.
        apply Map_has_false_get in Hhas. rewrite Hhas. reflexivity.
      * apply bool_decide_eq_false in E. rewrite Map_get_set_ne by assumption.
        reflexivity.
Qed.

Lemma filter_filter_known (seen : list (option string)) (k : option string)
    (l : list (option string)) :
  k ∈ seen ->
  List.filter (fun k' => negb (bool_decide (k' ∈ seen)))
    (List.filter (fun k' => negb (bool_decide (k' = k))) l) =
  List.filter (fun k' => negb (bool_decide (k' ∈ seen))) l.
Proof.
  intros Hk. induction l as [|x l IH]; simpl; [reflexivity|].
  destruct (bool_decide (x = k)) eqn:E; simpl.
  - apply bool_decide_eq_true in E. subst x.
    rewrite (bool_decide_eq_true_2 _ Hk). simpl. exact IH.
  - rewrite IH. reflexivity.
Qed.

Lemma filter_filter_new (seen : list (option string)) (k : option string)
    (l : list (option string)) :
  List.filter (fun k' => negb (bool_decide (k' ∈ seen ++ [k]))) l =
  List.filter (fun k' => negb (bool_decide (k' ∈ seen)))
    (List.filter (fun k' => negb (bool_decide (k' = k))) l).
Proof.
  induction l as [|x l IH]; simpl; [reflexivity|].
  destruct (bool_decide (x = k)) eqn:E; simpl.
  - apply bool_decide_eq_true in E. subst x.
    rewrite bool_decide_eq_true_2 by (apply elem_of_app; right; apply list_elem_of_singleton; reflexivity).
    simpl. exact IH.
  - apply bool_decide_eq_false in E.
    destruct (bool_decide (x ∈ seen)) eqn:F; simpl.
    + apply bool_decide_eq_true in F.
      rewrite bool_decide_eq_true_2 by (apply elem_of_app; left; exact F).
      simpl. exact IH.
    + apply bool_decide_eq_false in F.
      rewrite bool_decide_eq_false_2; [simpl; rewrite IH; reflexivity|].
      rewrite elem_of_app, list_elem_of_singleton. tauto.
Qed.

Lemma firstWins_keys (entry : CodeBlock.t -> FileState.t) (blocks : list element) :
  forall m : JsMap,
    Map.keys (firstWins entry blocks m) =
    Map.keys m ++
    List.filter (fun k' => negb (bool_decide (k' ∈ Map.keys m)))
      (firstOccurrences
         (List.map (fun child => CodeBlock.fileName (parseCodeBlockProps child)) blocks)).
Proof.
  induction blocks as [|x blocks IH]; intros m.
  - simpl. rewrite app_nil_r. reflexivity.
  - unfold firstWins. cbn [fold_left]. fold (firstWins entry blocks (addIfNew entry m x)).
    rewrite IH. unfold addIfNew. cbn [List.map firstOccurrences List.filter].
    destruct (Map.has m (CodeBlock.fileName (parseCodeBlockProps x))) eqn:Hhas.
    + assert (Hin := proj1 (Map_has_keys _ _) Hhas).
      rewrite (bool_decide_eq_true_2 _ Hin). simpl.
      rewrite filter_filter_known by assumption. reflexivity.
    + assert (Hnot : CodeBlock.fileName (parseCodeBlockProps x) ∉ Map.keys m).
      { intros Hin%Map_has_keys. congruence. }
      rewrite (bool_decide_eq_false_2 _ Hnot). simpl.
      rewrite Map_set_new by assumption.
      unfold Map.keys. rewrite fmap_app. simpl.
      rewrite <- app_assoc. simpl. do 2 f_equal.
      apply filter_filter_new.
Qed.

(** A callback of the shape of the two initialisers, run on a Map object
    that exists, leaves its reference and rewrites its value by [addIfNew]. *)
Lemma firstWins_reduce (entry : CodeBlock.t -> FileState.t)
    (callback : ref -> element -> nat -> M ref) :
  (forall (r : ref) (child : element) (idx : nat) (h : store),
     callback r child idx h =
     (let* known := Map_has r (CodeBlock.fileName (parseCodeBlockProps child)) in
      if known then ret r
      else Map_set r (CodeBlock.fileName (parseCodeBlockProps child))
             (entry (parseCodeBlockProps child))) h) ->
  forall (blocks : list element) (idx : nat) (r : ref) (h : store) (m : JsMap),
    h !! r = Some m ->
    reduce callback blocks idx r h = (Return r, <[r := firstWins entry blocks m]> h).
Proof.
  intros Hcb blocks. induction blocks as [|x blocks IH]; intros idx r h m Hr.
  - simpl. unfold ret. rewrite list_insert_id by assumption. reflexivity.
  - rewrite reduce_cons, Hcb. unfold bind, Map_has. rewrite Hr.
    unfold firstWins. cbn [fold_left]. fold (firstWins entry blocks (addIfNew entry m x)).
    unfold addIfNew.
    destruct (Map.has m (CodeBlock.fileName (parseCodeBlockProps x))) eqn:Hhas.
    + cbn [ret]. apply IH. assumption.
    + unfold Map_set. rewrite Hr.
      erewrite IH; [|apply list_lookup_insert_eq; eapply lookup_lt_Some; eassumption].
      rewrite list_insert_insert_eq. reflexivity.
Qed.

Lemma firstWins_fresh (entry : CodeBlock.t -> FileState.t)
    (callback : ref -> element -> nat -> M ref) (blocks : list element) (h : store) :
  (forall (r : ref) (child : element) (idx : nat) (h : store),
     callback r child idx h =
     (let* known := Map_has r (CodeBlock.fileName (parseCodeBlockProps child)) in
      if known then ret r
      else Map_set r (CodeBlock.fileName (parseCodeBlockProps child))
             (entry (parseCodeBlockProps child))) h) ->
  (let* map := newMap in reduce callback blocks 0 map) h =
  (Return (List.length h), h ++ [firstWins entry blocks []]).
Proof.
  intros Hcb. unfold bind, newMap.
  erewrite firstWins_reduce; [|exact Hcb|apply store_lookup_fresh].
  rewrite store_insert_fresh. reflexivity.
Qed.
End Initialisers.

Lemma filter_nothing_seen (l : list (option string)) :
  List.filter (fun k' => negb (bool_decide (k' ∈ @nil (option string)))) l = l.
Proof.
  induction l as [|x l IH]; [reflexivity|].
  cbn [List.filter].
  rewrite bool_decide_eq_false_2 by (intros Hin; inversion Hin).
  cbn [negb]. rewrite IH. reflexivity.
Qed.

Lemma parseProjectStateFromConfig_run {utils : CodeBlockUtils}
    (configElement : element) (h : store) :
  parseProjectStateFromConfig configElement h =
  (Return (List.length h),
   h ++ [firstWins newState (List.filter qualifies (children_of configElement)) []]).
Proof. unfold parseProjectStateFromConfig. apply firstWins_fresh. reflexivity. Qed.

Lemma parseProjectStateFromChildren_run {utils : CodeBlockUtils}
    (children : list element) (h : store) :
  parseProjectStateFromChildren children h =
  (Return (List.length h),
   h ++ [firstWins emptyState (flat_map codeBlocksOfChild children) []]).
Proof. unfold parseProjectStateFromChildren. apply firstWins_fresh. reflexivity. Qed.

(** C6: [parseProjectStateFromConfig] returns a new Map object and touches
    no other. Looking a file name up in it gives the code and language of the
    first non-shell code block among the config's children that names this
    file, and nothing when no such block does; its keys are the file names
    of these blocks in the order of their first occurrence. *)
Theorem parseProjectStateFromConfig_first_wins {utils : CodeBlockUtils}
    (configElement : element) (h : store) :
  exists m : JsMap,
    parseProjectStateFromConfig configElement h = (Return (List.length h), h ++ [m]) /\
    (forall k : option string,
       Map.get m k =
       (fun child =>
          {| FileState.code := CodeBlock.code (parseCodeBlockProps child);
             FileState.language := CodeBlock.language (parseCodeBlockProps child) |})
       <$> firstBlock k (List.filter qualifies (children_of configElement))) /\
    Map.keys m =
    firstOccurrences
      (List.map (fun child => CodeBlock.fileName (parseCodeBlockProps child))
         (List.filter qualifies (children_of configElement))).
Proof.
  exists (firstWins newState (List.filter qualifies (children_of configElement)) []).
  split; [|split].
  - apply parseProjectStateFromConfig_run.
  - intros k. rewrite firstWins_get. reflexivity.
  - rewrite firstWins_keys. simpl. apply filter_nothing_seen.
Qed.

Lemma codeBlocksOfChild_step {utils : CodeBlockUtils} (child : element) :
  mdxType child = Some "TutorialStep" ->
  codeBlocksOfChild child = List.filter qualifies (children_of child).
Proof. intros Ht. unfold codeBlocksOfChild. rewrite Ht. reflexivity. Qed.

Lemma codeBlocksOfChild_section {utils : CodeBlockUtils} (child : element) :
  mdxType child = Some "TutorialSection" ->
  codeBlocksOfChild child =
  flat_map (fun stepElement => List.filter qualifies (children_of stepElement))
           (children_of child).
Proof. intros Ht. unfold codeBlocksOfChild. rewrite Ht. reflexivity. Qed.

Lemma codeBlocksOfChild_other {utils : CodeBlockUtils} (child : element) :
  mdxType child <> Some "TutorialStep" -> mdxType child <> Some "TutorialSection" ->
  codeBlocksOfChild child = [].
Proof.
  intros H1 H2. unfold codeBlocksOfChild.
  rewrite !bool_decide_eq_false_2 by assumption. reflexivity.
Qed.

Lemma codeBlocksOfChild_documentOrder {utils : CodeBlockUtils} (children : list element) :
  flat_map codeBlocksOfChild children = documentOrderBlocks children.
Proof.
  induction children as [|child rest IH]; [reflexivity|].
  cbn [flat_map documentOrderBlocks]. rewrite IH. unfold codeBlocksOfChild.
  destruct (mdxType child) as [type|].
  - destruct (String.eqb_spec type "TutorialStep") as [->|Hstep].
    + rewrite bool_decide_eq_true_2 by reflexivity. reflexivity.
    + rewrite bool_decide_eq_false_2 by congruence.
      destruct (String.eqb_spec type "TutorialSection") as [->|Hsection].
      * rewrite bool_decide_eq_true_2 by reflexivity.
        unfold findCodeBlocksInTutorialSection. rewrite flat_map_concat_map. reflexivity.
      * rewrite bool_decide_eq_false_2 by congruence. reflexivity.
  - rewrite !bool_decide_eq_false_2 by discriminate. reflexivity.
Qed.

Lemma documentOrderBlocks_In {utils : CodeBlockUtils} (children : list element)
    (block : element) :
  In block (documentOrderBlocks children) <->
  isCodeBlock block = true /\ isShellCommand block = false /\
  ((exists stepElement : element,
      In stepElement children /\ mdxType stepElement = Some "TutorialStep" /\
      In block (children_of stepElement)) \/
   (exists sectionElement stepElement : element,
      In sectionElement children /\ mdxType sectionElement = Some "TutorialSection" /\
      In stepElement (children_of sectionElement) /\
      In block (children_of stepElement))).
Proof.
  assert (Hstep : forall stepElement,
            In block (stepCodeBlocks stepElement) <->
            isCodeBlock block = true /\ isShellCommand block = false /\
            In block (children_of stepElement)).
  { intros stepElement. unfold stepCodeBlocks. rewrite filter_In, andb_true_iff, negb_true_iff.
    tauto. }
  assert (Hsection : forall sectionElement,
            In block (List.concat (List.map stepCodeBlocks (children_of sectionElement))) <->
            isCodeBlock block = true /\ isShellCommand block = false /\
            exists stepElement, In stepElement (children_of sectionElement) /\
                                In block (children_of stepElement)).
  { intros sectionElement. rewrite in_concat. split.
    - intros (blocks & (st & <- & Hst)%in_map_iff & Hb).
      apply Hstep in Hb as (Hc & Hs & Hb). eauto 6.
    - intros (Hc & Hs & st & Hst & Hb). exists (stepCodeBlocks st).
      split; [apply in_map, Hst | apply Hstep; auto]. }
  induction children as [|child rest IH].
  - simpl. split; [tauto|]. intros (_ & _ & [(? & [] & _)|(? & ? & [] & _)]).
  - assert (Hhere : In block (documentOrderBlocks (child :: rest)) <->
              (mdxType child = Some "TutorialStep" /\ In block (stepCodeBlocks child)) \/
              (mdxType child = Some "TutorialSection" /\
               In block (List.concat (List.map stepCodeBlocks (children_of child)))) \/
              In block (documentOrderBlocks rest)).
    { cbn [documentOrderBlocks]. destruct (mdxType child) as [type|].
      - destruct (String.eqb_spec type "TutorialStep") as [->|Hnstep].
        + rewrite in_app_iff. split; [intros [?|?]; auto|].
          intros [[_ ?]|[[[=] _]|?]]; auto.
        + destruct (String.eqb_spec type "TutorialSection") as [->|Hnsection].
          * rewrite in_app_iff. split; [intros [?|?]; auto|].
            intros [[[=] _]|[[_ ?]|?]]; auto.
          * split; [auto|]. intros [[[=] _]|[[[=] _]|?]]; [congruence..|assumption].
      - split; [auto|]. intros [[[=] _]|[[[=] _]|?]]. assumption. }
    rewrite Hhere, IH, Hstep, Hsection. clear Hhere IH Hstep Hsection.
    split.
    + intros [(Ht & Hc & Hs & Hb)|[(Ht & Hc & Hs & st & Hst & Hb)|(Hc & Hs & Hrest)]].
      * split; [exact Hc|]. split; [exact Hs|]. left. exists child.
        split; [left; reflexivity|]. split; assumption.
      * split; [exact Hc|]. split; [exact Hs|]. right. exists child, st.
        split; [left; reflexivity|]. repeat split; assumption.
      * split; [exact Hc|]. split; [exact Hs|].
        destruct Hrest as [(st & Hst & Ht & Hb)|(se & st & Hse & Ht & Hst & Hb)].
        -- left. exists st. split; [right; exact Hst|]. split; assumption.
        -- right. exists se, st. split; [right; exact Hse|]. repeat split; assumption.
    + intros (Hc & Hs & [(st & [Heq|Hst] & Ht & Hb)|(se & st & [Heq|Hse] & Ht & Hst & Hb)]).
      * subst st. left. repeat split; assumption.
      * right. right. split; [exact Hc|]. split; [exact Hs|]. left. exists st.
        repeat split; assumption.
      * subst se. right. left. split; [exact Ht|]. split; [exact Hc|]. split; [exact Hs|].
        exists st. split; assumption.
      * right. right. split; [exact Hc|]. split; [exact Hs|]. right. exists se, st.
        repeat split; assumption.
Qed.

(** C7: [parseProjectStateFromChildren] returns a new Map object and touches
    no other. What it scans is [documentOrderBlocks children]: all the
    non-shell code blocks that are children of a top-level [TutorialStep] or
    of a child of a top-level [TutorialSection], and nothing else, taken in
    document order. Looking a file name up in the Map gives empty code and
    the language of the first of these blocks that names this file, and
    nothing when none does; the keys are the file names of these blocks in
    the order of their first occurrence. *)
Theorem parseProjectStateFromChildren_first_wins {utils : CodeBlockUtils}
    (children : list element) (h : store) :
  (exists m : JsMap,
     parseProjectStateFromChildren children h = (Return (List.length h), h ++ [m]) /\
     (forall k : option string,
        Map.get m k =
        (fun codeBlock =>
           {| FileState.code := "";
              FileState.language := CodeBlock.language (parseCodeBlockProps codeBlock) |})
        <$> List.find
              (fun codeBlock =>
                 bool_decide (CodeBlock.fileName (parseCodeBlockProps codeBlock) = k))
              (documentOrderBlocks children)) /\
     Map.keys m =
     firstOccurrences
       (List.map (fun codeBlock => CodeBlock.fileName (parseCodeBlockProps codeBlock))
          (documentOrderBlocks children))) /\
  (forall block : element,
     In block (documentOrderBlocks children) <->
     isCodeBlock block = true /\ isShellCommand block = false /\
     ((exists stepElement : element,
         In stepElement children /\ mdxType stepElement = Some "TutorialStep" /\
         In block (children_of stepElement)) \/
      (exists sectionElement stepElement : element,
         In sectionElement children /\ mdxType sectionElement = Some "TutorialSection" /\
         In stepElement (children_of sectionElement) /\
         In block (children_of stepElement)))).
Proof.
  split; [|intros block; apply documentOrderBlocks_In].
  exists (firstWins emptyState (flat_map codeBlocksOfChild children) []).
  split; [|split].
  - apply parseProjectStateFromChildren_run.
  - intros k. rewrite firstWins_get, codeBlocksOfChild_documentOrder. reflexivity.
  - rewrite firstWins_keys, codeBlocksOfChild_documentOrder. simpl.
    apply filter_nothing_seen.
Qed.

(** ** The validator and the render *)

(** When [validateChildren] rejects the children, [Tutorial] throws that
    error and nothing else happens: no ProjectState is created, no step is
    assembled, the store is as it was. *)
Theorem Tutorial_validation_aborts {utils : CodeBlockUtils} {lib : DiffLib}
    (children : list element) (msg : string) (h : store) :
  validateChildren children = Throw msg ->
  Tutorial children h = (Throw msg, h).
Proof.
  intros Hv. unfold Tutorial. unfold bind at 1. unfold useOnMount, lift.
  rewrite Hv. reflexivity.
Qed.

Lemma Tutorial_validation_aborts_witness :
  Tutorial (utils := mdxCodeBlock) (lib := lineDiff) Sample.stepAfterSection Sample.oneFile
  = (Throw stepOutsideSection, Sample.oneFile).
Proof.
  exact (Tutorial_validation_aborts (utils := mdxCodeBlock) (lib := lineDiff)
           Sample.stepAfterSection stepOutsideSection Sample.oneFile eq_refl).
Defined.

(** When the validator accepts, the render goes on to assemble. *)
Lemma Tutorial_validation_passes {utils : CodeBlockUtils} {lib : DiffLib}
    (children : list element) (h : store) :
  validateChildren children = Return tt ->
  Tutorial children h =
  (let* _ := ret tt in
   let isSectioned := existsb (fun child => isMdxType child "TutorialSection") children in
   let projectElement :=
     match children with
     | first :: _ => if isMdxType first "Project" then Some first else None
     | [] => None
     end in
   let children :=
     match projectElement with
     | Some _ => drop 1 children
     | None => children
     end in
   let* initialProjectState :=
     match projectElement with
     | Some configElement => parseProjectStateFromConfig configElement
     | None => parseProjectStateFromChildren children
     end in
   if isSectioned then gatherSections children initialProjectState
   else
     let* '(steps, _) := gatherSteps children initialProjectState in
     ret steps) h.
Proof.
  intros Hv. unfold Tutorial. unfold bind at 1. unfold useOnMount, lift.
  rewrite Hv. reflexivity.
Qed.

Lemma forallb_lookup_false {A} (p : A -> bool) (l : list A) (i : nat) (x : A) :
  l !! i = Some x -> p x = false -> forallb p l = false.
Proof.
  revert i. induction l as [|y l IH]; intros i Hi Hp; [discriminate|].
  destruct i as [|i]; simpl in *.
  - inversion Hi; subst. rewrite Hp. reflexivity.
  - rewrite (IH i Hi Hp). apply andb_false_r.
Qed.

(** C2 as stated fails: with a [Project] that is not the first child the
    validator reports the misplaced [Project], not the step outside a
    section. *)
Lemma validateChildren_misplaced_project :
  existsb (fun child => isMdxType child "TutorialSection") Sample.misplacedProject = true /\
  Sample.misplacedProject !! 2 = Some (Sample.TutorialStep []) /\
  isMdxType (Sample.TutorialStep []) "TutorialStep" = true /\
  validateChildren Sample.misplacedProject = Throw projectNotFirst /\
  validateChildren Sample.misplacedProject <> Throw stepOutsideSection.
Proof. repeat split. discriminate. Qed.

(** The first child is dropped before the nesting check, [Project] or not:
    a bare step in front of the sections is accepted. *)
Lemma validateChildren_first_child_unchecked :
  existsb (fun child => isMdxType child "TutorialSection") Sample.stepBeforeSection = true /\
  Sample.stepBeforeSection !! 0 = Some (Sample.TutorialStep []) /\
  validateChildren Sample.stepBeforeSection = Return tt.
Proof. repeat split. Qed.

(** C2, amended: in a child sequence that contains a [TutorialSection] and
    no [Project] after the first position, a [TutorialStep] at any position
    after the first makes [validateChildren] throw the nesting error. *)
Theorem validateChildren_step_outside_section
    (children : list element) (i : nat) (child : element) :
  existsb (fun child => isMdxType child "TutorialSection") children = true ->
  (findIndex (fun child => isMdxType child "Project") children <= 0)%Z ->
  children !! i = Some child -> 1 <= i ->
  isMdxType child "TutorialStep" = true ->
  validateChildren children = Throw stepOutsideSection.
Proof.
  intros Hsec Hproj Hi Hpos Hstep. unfold validateChildren.
  rewrite Hsec.
  destruct (Z.gtb_spec (findIndex (fun child => isMdxType child "Project") children) 0) as [Hgt|_];
    [lia|].
  unfold validateSections.
  rewrite (forallb_lookup_false _ (drop 1 children) (i - 1) child); [reflexivity| |].
  - rewrite lookup_drop. replace (1 + (i - 1)) with i by lia. exact Hi.
  - rewrite Hstep. reflexivity.
Qed.

Lemma validateChildren_step_outside_section_witness :
  validateChildren Sample.stepAfterSection = Throw stepOutsideSection.
Proof.
  apply (validateChildren_step_outside_section Sample.stepAfterSection 1
           (Sample.TutorialStep [])).
  - reflexivity.
  - vm_compute. discriminate.
  - reflexivity.
  - lia.
  - reflexivity.
Defined.

(** The render of an unsectioned tutorial that starts with a [Project]. *)
Lemma Tutorial_with_project {utils : CodeBlockUtils} {lib : DiffLib}
    (configElement : element) (rest : list element) (h : store) :
  isMdxType configElement "Project" = true ->
  existsb (fun child => isMdxType child "TutorialSection") (configElement :: rest) = false ->
  validateChildren (configElement :: rest) = Return tt ->
  Tutorial (configElement :: rest) h =
  (let* initialProjectState := parseProjectStateFromConfig configElement in
   let* '(steps, _) := gatherSteps rest initialProjectState in
   ret steps) h.
Proof.
  intros Hp Hs Hv. rewrite Tutorial_validation_passes by assumption.
  unfold bind at 1. cbn [ret]. cbv zeta. rewrite Hp, Hs. reflexivity.
Qed.

(** C9: the project defines index.js as [a] and the first step holds a code
    block for index.js with code [b]. The render returns that step with the
    block replaced by an editor focused on index.js whose diff removes [a]
    and adds [b]; the ProjectState that [gatherSteps] ends in is the one the
    editor carries, and it maps index.js to code [b]. *)
Theorem Tutorial_example {utils : CodeBlockUtils}
    (configBlock stepBlock : element) (language language' : string) (h : store) :
  isCodeBlock configBlock = true -> isShellCommand configBlock = false ->
  parseCodeBlockProps configBlock =
    {| CodeBlock.code := "a"; CodeBlock.fileName := Some "index.js";
       CodeBlock.language := language |} ->
  isCodeBlock stepBlock = true -> isShellCommand stepBlock = false ->
  parseCodeBlockProps stepBlock =
    {| CodeBlock.code := "b"; CodeBlock.fileName := Some "index.js";
       CodeBlock.language := language' |} ->
  Tutorial (lib := lineDiff)
    [Sample.Project [configBlock]; Sample.TutorialStep [stepBlock]] h =
    (Return
       [Element (Some "TutorialStep")
          {| attrs := []; stepNumber := Some 1; totalSteps := Some 1; editor := None |}
          [TutorialEditor 0 (Some "index.js")
             [ {| Change.value := "a"; Change.added := false;
                  Change.removed := true; Change.count := 1 |};
               {| Change.value := "b"; Change.added := true;
                  Change.removed := false; Change.count := 1 |} ]
             (S (List.length h))]],
     h ++ [[(Some "index.js", {| FileState.code := "a"; FileState.language := language |})];
           [(Some "index.js", {| FileState.code := "b"; FileState.language := language' |})]]) /\
  stateOf (gatherSteps (lib := lineDiff) [Sample.TutorialStep [stepBlock]] (List.length h)
             (h ++ [[(Some "index.js",
                      {| FileState.code := "a"; FileState.language := language |})]])) =
    (Return (S (List.length h)),
     h ++ [[(Some "index.js", {| FileState.code := "a"; FileState.language := language |})];
           [(Some "index.js", {| FileState.code := "b"; FileState.language := language' |})]]) /\
  Map.get [(Some "index.js", {| FileState.code := "b"; FileState.language := language' |})]
          (Some "index.js")
    = Some {| FileState.code := "b"; FileState.language := language' |}.
Proof.
  intros Hc Hs Hp Hc' Hs' Hp'.
  assert (Hsteps :
    gatherSteps (lib := lineDiff) [Sample.TutorialStep [stepBlock]] (List.length h)
      (h ++ [[(Some "index.js", {| FileState.code := "a"; FileState.language := language |})]]) =
    (Return
       ([Element (Some "TutorialStep")
           {| attrs := []; stepNumber := Some 1; totalSteps := Some 1; editor := None |}
           [TutorialEditor 0 (Some "index.js")
              [ {| Change.value := "a"; Change.added := false;
                   Change.removed := true; Change.count := 1 |};
                {| Change.value := "b"; Change.added := true;
                   Change.removed := false; Change.count := 1 |} ]
              (S (List.length h))]],
        S (List.length h)),
     h ++ [[(Some "index.js", {| FileState.code := "a"; FileState.language := language |})];
           [(Some "index.js", {| FileState.code := "b"; FileState.language := language' |})]])).
  { unfold gatherSteps.
    rewrite reduce_cons. unfold gatherSteps_callback, swapCodeBlocks.
    unfold bind at 1. cbn [children_of Sample.TutorialStep].
    rewrite reduce_cons.
    erewrite swapCodeBlocks_callback_known;
      [|exact Hc'|exact Hs'|apply store_lookup_fresh|rewrite Hp'; reflexivity].
    rewrite Hp'.
    cbn [reduce ret]. rewrite length_app, <- app_assoc. cbn [List.length app].
    replace (List.length h + 1) with (S (List.length h)) by lia.
    reflexivity. }
  split; [|split].
  - rewrite Tutorial_with_project by reflexivity.
    unfold bind at 1. rewrite parseProjectStateFromConfig_run.
    cbn [children_of Sample.Project List.filter]. unfold qualifies at 1.
    rewrite Hc, Hs. cbn [negb andb].
    unfold firstWins. cbn [fold_left]. unfold addIfNew. rewrite Hp.
    cbn [CodeBlock.fileName Map.has existsb Map.set]. unfold newState.
    cbn [CodeBlock.code CodeBlock.language].
    unfold bind at 1. rewrite Hsteps. reflexivity.
  - rewrite Hsteps. reflexivity.
  - reflexivity.
Qed.

Lemma Tutorial_example_witness :
  Tutorial (utils := mdxCodeBlock) (lib := lineDiff) Sample.example []
  = (Return
       [Element (Some "TutorialStep")
          {| attrs := []; stepNumber := Some 1; totalSteps := Some 1; editor := None |}
          [TutorialEditor 0 (Some "index.js")
             [ {| Change.value := "a"; Change.added := false;
                  Change.removed := true; Change.count := 1 |};
               {| Change.value := "b"; Change.added := true;
                  Change.removed := false; Change.count := 1 |} ]
             1]],
     [[(Some "index.js", {| FileState.code := "a"; FileState.language := "js" |})];
      [(Some "index.js", {| FileState.code := "b"; FileState.language := "js" |})]]).
Proof.
  exact (proj1 (Tutorial_example (utils := mdxCodeBlock)
                  (Sample.codeBlock "index.js" "js" "a")
                  (Sample.codeBlock "index.js" "js" "b") "js" "js" []
                  eq_refl eq_refl eq_refl eq_refl eq_refl eq_refl)).
Defined.

(** * Further properties of the assembly *)

(** ** One step *)

Lemma Map_has_same_keys (m m' : JsMap) (k : option string) :
  Map.keys m' = Map.keys m -> Map.has m' k = Map.has m k.
Proof.
  intros Hk. apply eq_true_iff_eq. rewrite !Map_has_keys, Hk. reflexivity.
Qed.

Lemma qualifies_spec {utils : CodeBlockUtils} (child : element) :
  qualifies child = negb (negb (isCodeBlock child) || isShellCommand child).
Proof. unfold qualifies. destruct (isCodeBlock child), (isShellCommand child); reflexivity. Qed.

Lemma qualifies_true {utils : CodeBlockUtils} (child : element) :
  qualifies child = true <-> isCodeBlock child = true /\ isShellCommand child = false.
Proof.
  unfold qualifies. destruct (isCodeBlock child), (isShellCommand child); simpl;
    split; try tauto; try discriminate; intros [? ?]; discriminate.
Qed.

Lemma qualifies_false {utils : CodeBlockUtils} (child : element) :
  qualifies child = false <-> negb (isCodeBlock child) || isShellCommand child = true.
Proof. rewrite qualifies_spec. destruct (negb (isCodeBlock child) || isShellCommand child); simpl; split; congruence. Qed.

(** A qualifying block met while the state reference is dangling throws. *)
Lemma swapCodeBlocks_callback_dangling {utils : CodeBlockUtils} {lib : DiffLib}
    (children : list element) (cur : ref) (child : element) (idx : nat) (h : store) :
  qualifies child = true -> h !! cur = None ->
  swapCodeBlocks_callback (children, cur) child idx h = (Throw TypeError, h).
Proof.
  intros [Hc Hs]%qualifies_true Hcur. unfold swapCodeBlocks_callback.
  rewrite Hc, Hs. cbn [negb orb]. cbv beta zeta. unfold bind at 1. unfold Map_has.
  rewrite Hcur. reflexivity.
Qed.

Lemma swapCodeBlocks_reduce_positions {utils : CodeBlockUtils} {lib : DiffLib}
    (l : list element) :
  forall (n : nat) (acc : list element) (cur : ref) (h : store)
         (out : list element) (next : ref) (h' : store),
    reduce swapCodeBlocks_callback l n (acc, cur) h = (Return (out, next), h') ->
    exists new : list element,
      out = acc ++ new /\ List.length new = List.length l /\
      forall (i : nat) (child : element),
        l !! i = Some child ->
        if qualifies child then
          exists (prevCode : string) (snapshot : ref) (m : list (option string * FileState.t)),
            new !! i = Some (TutorialEditor (n + i)
                               (CodeBlock.fileName (parseCodeBlockProps child))
                               (diffLines prevCode (CodeBlock.code (parseCodeBlockProps child)))
                               snapshot) /\
            h !! snapshot = None /\
            h' !! snapshot = Some m /\
            Map.get m (CodeBlock.fileName (parseCodeBlockProps child))
              = Some (newState (parseCodeBlockProps child))
        else new !! i = Some child.
Proof.
  induction l as [|x l IH]; intros n acc cur h out next h' Hrun.
  - inversion Hrun; subst. exists []. rewrite app_nil_r.
    repeat split. intros i c Hi. discriminate.
  - rewrite reduce_cons in Hrun.
    destruct (qualifies x) eqn:Hq.
    + destruct (h !! cur) as [m|] eqn:Hcur;
        [|rewrite swapCodeBlocks_callback_dangling in Hrun by assumption; discriminate].
      pose proof Hq as [Hc Hs]%qualifies_true.
      destruct (Map.get m (CodeBlock.fileName (parseCodeBlockProps x))) as [prev|] eqn:Hget.
      * erewrite swapCodeBlocks_callback_known in Hrun by eassumption.
        pose proof (reduce_prefix _ swapCodeBlocks_callback_prefix l (S n)
                      (acc ++ [TutorialEditor n (CodeBlock.fileName (parseCodeBlockProps x))
                                 (diffLines (FileState.code prev)
                                    (CodeBlock.code (parseCodeBlockProps x)))
                                 (List.length h)], List.length h)
                      (h ++ [Map.set m (CodeBlock.fileName (parseCodeBlockProps x))
                               (newState (parseCodeBlockProps x))])) as Hpre.
        rewrite Hrun in Hpre. cbn [snd] in Hpre.
        apply IH in Hrun as (new & -> & Hlen & Hnew).
        eexists (_ :: new). rewrite <- app_assoc. split; [reflexivity|].
        split; [simpl; lia|].
        intros [|i] c Hi; simpl in Hi.
        -- inversion Hi; subst c. rewrite Hq.
           exists (FileState.code prev), (List.length h),
             (Map.set m (CodeBlock.fileName (parseCodeBlockProps x))
                (newState (parseCodeBlockProps x))).
           replace (n + 0) with n by lia. split; [reflexivity|].
           split; [apply lookup_ge_None; lia|].
           split; [|apply Map_get_set_eq].
           eapply prefix_lookup_Some; [apply store_lookup_fresh | exact Hpre].
        -- specialize (Hnew i c Hi). destruct (qualifies c); [|exact Hnew].
           destruct Hnew as (pc & sn & ms & Hl & Hfresh & Hsn & Hg).
           exists pc, sn, ms. replace (n + S i) with (S n + i) by lia.
           split; [exact Hl|]. split; [|split; assumption].
           apply lookup_ge_None. apply lookup_ge_None in Hfresh.
           rewrite length_app in Hfresh. simpl in Hfresh. lia.
      * apply Map_has_false_get in Hget.
        erewrite swapCodeBlocks_callback_missing in Hrun by eassumption. discriminate.
    + rewrite swapCodeBlocks_callback_passthrough in Hrun by (apply qualifies_false; exact Hq).
      apply IH in Hrun as (new & -> & Hlen & Hnew).
      exists (x :: new). rewrite <- app_assoc. split; [reflexivity|].
      split; [simpl; lia|].
      intros [|i] c Hi; simpl in Hi.
      * inversion Hi; subst c. rewrite Hq. reflexivity.
      * specialize (Hnew i c Hi). destruct (qualifies c); [|exact Hnew].
        destruct Hnew as (pc & sn & ms & Hl & Hrest).
        exists pc, sn, ms. replace (n + S i) with (S n + i) by lia.
        split; [exact Hl | exact Hrest].
Qed.

(** X1: when [swapCodeBlocks] returns, the output has one node per child of
    the step, in the same order. A child that is no code block, or a shell
    command, is there as it was. A qualifying code block is replaced by an
    editor whose key is the child's position and whose focused file is the
    block's file name; the snapshot the editor carries is a Map object that
    did not exist before the call, and in the store the call returns it maps
    that file to the block's code and language. *)
Theorem swapCodeBlocks_positions {utils : CodeBlockUtils} {lib : DiffLib}
    (stepElement : element) (initialProjectState : ref) (h : store)
    (out : list element) (next : ref) (h' : store) :
  swapCodeBlocks stepElement initialProjectState h = (Return (out, next), h') ->
  List.length out = List.length (children_of stepElement) /\
  forall (i : nat) (child : element),
    children_of stepElement !! i = Some child ->
    if qualifies child then
      exists (prevCode : string) (snapshot : ref) (m : list (option string * FileState.t)),
        out !! i = Some (TutorialEditor i
                           (CodeBlock.fileName (parseCodeBlockProps child))
                           (diffLines prevCode (CodeBlock.code (parseCodeBlockProps child)))
                           snapshot) /\
        h !! snapshot = None /\
        h' !! snapshot = Some m /\
        Map.get m (CodeBlock.fileName (parseCodeBlockProps child))
          = Some (newState (parseCodeBlockProps child))
    else out !! i = Some child.
Proof.
  intros Hrun. apply swapCodeBlocks_reduce_positions in Hrun as (new & -> & Hlen & Hnew).
  split; [exact Hlen | exact Hnew].
Qed.

Lemma swapCodeBlocks_positions_witness :
  exists (out : list element) (next : ref) (h' : store),
    swapCodeBlocks (utils := mdxCodeBlock) (lib := lineDiff)
      (Sample.TutorialStep [Sample.text "Again"; Sample.codeBlock "index.js" "js" "c";
                            Sample.shell "npm start"]) 0 Sample.oneFile
      = (Return (out, next), h') /\
    List.length out = 3.
Proof.
  eexists _, _, _. split; [reflexivity|].
  exact (proj1 (swapCodeBlocks_positions (utils := mdxCodeBlock) (lib := lineDiff)
                  (Sample.TutorialStep [Sample.text "Again";
                                        Sample.codeBlock "index.js" "js" "c";
                                        Sample.shell "npm start"])
                  0 Sample.oneFile _ _ _ eq_refl)).
Defined.

Lemma find_snoc {A} (p : A -> bool) (l : list A) (x : A) :
  List.find p (l ++ [x]) =
  match List.find p l with
  | Some y => Some y
  | None => if p x then Some x else None
  end.
Proof.
  induction l as [|y l IH]; simpl; [reflexivity|].
  destruct (p y); [reflexivity | exact IH].
Qed.

Lemma swapCodeBlocks_reduce_state {utils : CodeBlockUtils} {lib : DiffLib}
    (l : list element) :
  forall (n : nat) (acc : list element) (cur : ref) (h : store)
         (m : list (option string * FileState.t))
         (out : list element) (next : ref) (h' : store),
    h !! cur = Some m ->
    reduce swapCodeBlocks_callback l n (acc, cur) h = (Return (out, next), h') ->
    exists m' : list (option string * FileState.t),
      h' !! next = Some m' /\
      Map.keys m' = Map.keys m /\
      forall k : option string,
        Map.get m' k =
        match firstBlock k (rev (List.filter qualifies l)) with
        | Some block => Some (newState (parseCodeBlockProps block))
        | None => Map.get m k
        end.
Proof.
  induction l as [|x l IH]; intros n acc cur h m out next h' Hcur Hrun.
  - inversion Hrun; subst. exists m. repeat split. exact Hcur.
  - rewrite reduce_cons in Hrun. cbn [List.filter].
    destruct (qualifies x) eqn:Hq.
    + pose proof Hq as [Hc Hs]%qualifies_true.
      destruct (Map.get m (CodeBlock.fileName (parseCodeBlockProps x))) as [prev|] eqn:Hget.
      * erewrite swapCodeBlocks_callback_known in Hrun by eassumption.
        eapply IH in Hrun as (m' & Hnext & Hkeys & Hgets); [|apply store_lookup_fresh].
        exists m'. split; [exact Hnext|]. split.
        -- rewrite Hkeys. apply Map_keys_set_known, Map_has_get. eauto.
        -- intros k. rewrite Hgets. cbn [rev]. unfold firstBlock. rewrite find_snoc.
           destruct (List.find _ (rev (List.filter qualifies l))); [reflexivity|].
           destruct (bool_decide (CodeBlock.fileName (parseCodeBlockProps x) = k)) eqn:E.
           ++ apply bool_decide_eq_true in E. subst k. apply Map_get_set_eq.
           ++ apply bool_decide_eq_false in E. apply Map_get_set_ne. exact E.
      * apply Map_has_false_get in Hget.
        erewrite swapCodeBlocks_callback_missing in Hrun by eassumption. discriminate.
    + rewrite swapCodeBlocks_callback_passthrough in Hrun by (apply qualifies_false; exact Hq).
      eapply IH in Hrun; eassumption.
Qed.

(** X2: the ProjectState a step ends in is the one it started from with the
    step's code blocks written over it, the last block for a file winning:
    a file named by some qualifying block of the step has the code and
    language of the last such block, every other file has what it had, and
    the files and their order are the same. *)
Theorem swapCodeBlocks_final_state {utils : CodeBlockUtils} {lib : DiffLib}
    (stepElement : element) (initialProjectState : ref) (h : store)
    (m : list (option string * FileState.t))
    (out : list element) (next : ref) (h' : store) :
  h !! initialProjectState = Some m ->
  swapCodeBlocks stepElement initialProjectState h = (Return (out, next), h') ->
  exists m' : list (option string * FileState.t),
    h' !! next = Some m' /\
    Map.keys m' = Map.keys m /\
    forall k : option string,
      Map.get m' k =
      match firstBlock k (rev (List.filter qualifies (children_of stepElement))) with
      | Some block => Some (newState (parseCodeBlockProps block))
      | None => Map.get m k
      end.
Proof. intros Hcur Hrun. eapply swapCodeBlocks_reduce_state; eassumption. Qed.

Lemma swapCodeBlocks_final_state_witness :
  exists m' : list (option string * FileState.t),
    (Sample.oneFile ++
       [[(Some "index.js", {| FileState.code := "b"; FileState.language := "js" |})];
        [(Some "index.js", {| FileState.code := "c"; FileState.language := "js" |})]]) !! 2
      = Some m' /\
    Map.keys m' = [Some "index.js"].
Proof.
  destruct (swapCodeBlocks_final_state (utils := mdxCodeBlock) (lib := lineDiff)
              (Sample.TutorialStep [Sample.codeBlock "index.js" "js" "b";
                                    Sample.codeBlock "index.js" "js" "c"])
              0 Sample.oneFile _ _ _ _ eq_refl eq_refl)
    as (m' & Hnext & Hkeys & _).
  exists m'. split; assumption.
Defined.

Lemma swapCodeBlocks_reduce_outcome {utils : CodeBlockUtils} {lib : DiffLib}
    (l : list element) :
  forall (n : nat) (acc : list element) (cur : ref) (h : store)
         (m : list (option string * FileState.t)),
    h !! cur = Some m ->
    (exists out next h',
       reduce swapCodeBlocks_callback l n (acc, cur) h = (Return (out, next), h')) <->
    (forall child : element,
       In child l -> qualifies child = true ->
       Map.has m (CodeBlock.fileName (parseCodeBlockProps child)) = true).
Proof.
  induction l as [|x l IH]; intros n acc cur h m Hcur.
  - split; [intros _ c []|]. intros _. eexists _, _, _. reflexivity.
  - rewrite reduce_cons. destruct (qualifies x) eqn:Hq.
    + pose proof Hq as [Hc Hs]%qualifies_true.
      destruct (Map.get m (CodeBlock.fileName (parseCodeBlockProps x))) as [prev|] eqn:Hget.
      * erewrite swapCodeBlocks_callback_known by eassumption.
        assert (Hhas : Map.has m (CodeBlock.fileName (parseCodeBlockProps x)) = true)
          by (apply Map_has_get; eauto).
        pose proof (Map_keys_set_known m _ (newState (parseCodeBlockProps x)) Hhas) as Hkeys.
        rewrite (IH _ _ _ _ _ (store_lookup_fresh h _)).
        split.
        -- intros Hall c [<-|Hin] Hqc; [exact Hhas|].
           rewrite <- (Map_has_same_keys m _ _ Hkeys).
           apply Hall; assumption.
        -- intros Hall c Hin Hqc.
           rewrite (Map_has_same_keys m _ _ Hkeys).
           apply Hall; [right; exact Hin | exact Hqc].
      * apply Map_has_false_get in Hget.
        erewrite swapCodeBlocks_callback_missing by eassumption.
        split; [intros (? & ? & ? & ?); discriminate|].
        intros Hall. specialize (Hall x (or_introl eq_refl) Hq). congruence.
    + rewrite swapCodeBlocks_callback_passthrough by (apply qualifies_false; exact Hq).
      rewrite (IH _ _ _ _ _ Hcur).
      split.
      * intros Hall c [<-|Hin] Hqc; [congruence | apply Hall; assumption].
      * intros Hall c Hin Hqc. apply Hall; [right; exact Hin | exact Hqc].
Qed.

(** X3: a step is assembled without error exactly when every qualifying code
    block among its children names a file of the ProjectState the step starts
    from: [swapCodeBlocks] returns if and only if each such file name is a
    key of that Map. *)
Theorem swapCodeBlocks_returns_iff {utils : CodeBlockUtils} {lib : DiffLib}
    (stepElement : element) (initialProjectState : ref) (h : store)
    (m : list (option string * FileState.t)) :
  h !! initialProjectState = Some m ->
  (exists out next h',
     swapCodeBlocks stepElement initialProjectState h = (Return (out, next), h')) <->
  (forall child : element,
     In child (children_of stepElement) -> qualifies child = true ->
     Map.has m (CodeBlock.fileName (parseCodeBlockProps child)) = true).
Proof. intros Hcur. apply swapCodeBlocks_reduce_outcome. exact Hcur. Qed.

Lemma swapCodeBlocks_returns_iff_witness :
  exists out next h',
    swapCodeBlocks (utils := mdxCodeBlock) (lib := lineDiff)
      (Sample.TutorialStep [Sample.codeBlock "index.js" "js" "b"]) 0 Sample.oneFile
    = (Return (out, next), h').
Proof.
  apply (swapCodeBlocks_returns_iff (utils := mdxCodeBlock) (lib := lineDiff)
           (Sample.TutorialStep [Sample.codeBlock "index.js" "js" "b"]) 0 Sample.oneFile
           _ eq_refl).
  intros child [<-|[]] _. reflexivity.
Defined.

(** ** A sequence of steps *)

Section StepSequences.
Context {utils : CodeBlockUtils} {lib : DiffLib}.

Lemma gatherSteps_callback_run (steps : list element) (cur : ref)
    (stepElement : element) (idx : nat) (h : store) :
  gatherSteps_callback (steps, cur) stepElement idx h =
  match swapCodeBlocks stepElement cur h with
  | (Return (children, projectState), h') =>
      (Return (steps ++ [cloneElement_step stepElement children (idx + 1)
                           (List.length children)], projectState), h')
  | (Throw msg, h') => (Throw msg, h')
  end.
Proof.
  unfold gatherSteps_callback, bind.
  destruct (swapCodeBlocks stepElement cur h) as [[[cs ps]|msg] h']; reflexivity.
Qed.

Lemma gatherSteps_callback_prefix (memo : list element * ref) (stepElement : element)
    (idx : nat) (h : store) :
  h `prefix_of` (gatherSteps_callback memo stepElement idx h).2.
Proof.
  destruct memo as [steps cur]. rewrite gatherSteps_callback_run.
  pose proof (swapCodeBlocks_prefix stepElement cur h) as Hpre.
  destruct (swapCodeBlocks stepElement cur h) as [[[cs ps]|msg] h']; exact Hpre.
Qed.

Lemma gatherSteps_prefix (children : list element) (r : ref) (h : store) :
  h `prefix_of` (gatherSteps children r h).2.
Proof. apply reduce_prefix, gatherSteps_callback_prefix. Qed.

(** The state a run of steps ends in depends neither on the ordinal the
    numbering starts from nor on the steps gathered so far. *)
Lemma gatherSteps_reduce_stateOf (l : list element) :
  forall (n n' : nat) (acc acc' : list element) (cur : ref) (h : store),
    stateOf (reduce gatherSteps_callback l n (acc, cur) h) =
    stateOf (reduce gatherSteps_callback l n' (acc', cur) h).
Proof.
  induction l as [|x l IH]; intros n n' acc acc' cur h; [reflexivity|].
  rewrite !reduce_cons, !gatherSteps_callback_run.
  destruct (swapCodeBlocks x cur h) as [[[cs ps]|msg] h1]; [apply IH | reflexivity].
Qed.

Lemma gatherSteps_stateOf_app (l1 l2 : list element) (r : ref) (h : store) :
  stateOf (gatherSteps (l1 ++ l2) r h) =
  match stateOf (gatherSteps l1 r h) with
  | (Return r1, h1) => stateOf (gatherSteps l2 r1 h1)
  | (Throw msg, h1) => (Throw msg, h1)
  end.
Proof.
  unfold gatherSteps. rewrite reduce_app.
  destruct (reduce gatherSteps_callback l1 0 ([], r) h) as [[[steps r1]|msg] h1];
    [|reflexivity].
  unfold stateOf at 2. cbn [fst snd]. apply gatherSteps_reduce_stateOf.
Qed.

Lemma find_app {A} (p : A -> bool) (l1 l2 : list A) :
  List.find p (l1 ++ l2) =
  match List.find p l1 with
  | Some y => Some y
  | None => List.find p l2
  end.
Proof.
  induction l1 as [|y l1 IH]; simpl; [reflexivity|].
  destruct (p y); [reflexivity | exact IH].
Qed.

Lemma gatherSteps_reduce_state (l : list element) :
  forall (n : nat) (acc : list element) (cur : ref) (h : store)
         (m : list (option string * FileState.t))
         (steps : list element) (next : ref) (h' : store),
    h !! cur = Some m ->
    reduce gatherSteps_callback l n (acc, cur) h = (Return (steps, next), h') ->
    exists m' : list (option string * FileState.t),
      h' !! next = Some m' /\
      Map.keys m' = Map.keys m /\
      forall k : option string,
        Map.get m' k =
        match firstBlock k (rev (flat_map findCodeBlocksInTutorialStep l)) with
        | Some block => Some (newState (parseCodeBlockProps block))
        | None => Map.get m k
        end.
Proof.
  induction l as [|x l IH]; intros n acc cur h m steps next h' Hcur Hrun.
  - inversion Hrun; subst. exists m. repeat split. exact Hcur.
  - rewrite reduce_cons, gatherSteps_callback_run in Hrun.
    destruct (swapCodeBlocks x cur h) as [[[cs ps]|msg] h1] eqn:Hswap; [|discriminate].
    destruct (swapCodeBlocks_reduce_state _ _ _ _ _ _ _ _ _ Hcur Hswap)
      as (m1 & Hps & Hkeys1 & Hget1).
    destruct (IH _ _ _ _ _ _ _ _ Hps Hrun) as (m' & Hnext & Hkeys & Hget).
    exists m'. split; [exact Hnext|]. split; [congruence|].
    intros k. rewrite Hget. cbn [flat_map]. rewrite rev_app_distr.
    unfold firstBlock. rewrite find_app.
    destruct (List.find _ (rev (flat_map findCodeBlocksInTutorialStep l))); [reflexivity|].
    apply Hget1.
Qed.

Lemma gatherSteps_reduce_outcome (l : list element) :
  forall (n : nat) (acc : list element) (cur : ref) (h : store)
         (m : list (option string * FileState.t)),
    h !! cur = Some m ->
    (exists steps next h',
       reduce gatherSteps_callback l n (acc, cur) h = (Return (steps, next), h')) <->
    (forall block : element,
       In block (flat_map findCodeBlocksInTutorialStep l) ->
       Map.has m (CodeBlock.fileName (parseCodeBlockProps block)) = true).
Proof.
  induction l as [|x l IH]; intros n acc cur h m Hcur.
  - split; [intros _ c []|]. intros _. eexists _, _, _. reflexivity.
  - rewrite reduce_cons, gatherSteps_callback_run. cbn [flat_map].
    pose proof (swapCodeBlocks_reduce_outcome (children_of x) 0 [] cur h m Hcur) as Hstep.
    fold (swapCodeBlocks x cur h) in Hstep.
    destruct (swapCodeBlocks x cur h) as [[[cs ps]|msg] h1] eqn:Hswap.
    + destruct (swapCodeBlocks_reduce_state _ _ _ _ _ _ _ _ _ Hcur Hswap)
        as (m1 & Hps & Hkeys1 & _).
      rewrite (IH _ _ _ _ _ Hps).
      assert (Hx : forall child, In child (children_of x) -> qualifies child = true ->
                   Map.has m (CodeBlock.fileName (parseCodeBlockProps child)) = true)
        by (apply Hstep; eauto).
      split.
      * intros Hall b [Hb|Hb]%in_app_or.
        -- apply filter_In in Hb as [Hin Hq]. apply Hx; assumption.
        -- rewrite <- (Map_has_same_keys m m1 _ Hkeys1). apply Hall, Hb.
      * intros Hall b Hb. rewrite (Map_has_same_keys m m1 _ Hkeys1).
        apply Hall, in_or_app. right. exact Hb.
    + split; [intros (? & ? & ? & ?); discriminate|].
      intros Hall. exfalso.
      destruct (proj2 Hstep) as (? & ? & ? & ?); [|discriminate].
      intros c Hin Hq. apply Hall, in_or_app. left.
      apply filter_In. split; assumption.
Qed.

(** X4: [gatherSteps] returns exactly when every non-shell code block of
    every step names a file of the ProjectState it starts from. *)
Theorem gatherSteps_returns_iff (children : list element) (initialProjectState : ref)
    (h : store) (m : list (option string * FileState.t)) :
  h !! initialProjectState = Some m ->
  (exists steps next h',
     gatherSteps children initialProjectState h = (Return (steps, next), h')) <->
  (forall block : element,
     In block (flat_map findCodeBlocksInTutorialStep children) ->
     Map.has m (CodeBlock.fileName (parseCodeBlockProps block)) = true).
Proof. intros Hcur. apply gatherSteps_reduce_outcome. exact Hcur. Qed.

(** X5: the ProjectState [gatherSteps] ends in has the files of the state it
    started from, in the same order; a file named by a code block of some
    step has the code and language of the last such block in document order,
    every other file has what it had. *)
Theorem gatherSteps_final_state (children : list element) (initialProjectState : ref)
    (h : store) (m : list (option string * FileState.t))
    (steps : list element) (next : ref) (h' : store) :
  h !! initialProjectState = Some m ->
  gatherSteps children initialProjectState h = (Return (steps, next), h') ->
  exists m' : list (option string * FileState.t),
    h' !! next = Some m' /\
    Map.keys m' = Map.keys m /\
    forall k : option string,
      Map.get m' k =
      match firstBlock k (rev (flat_map findCodeBlocksInTutorialStep children)) with
      | Some block => Some (newState (parseCodeBlockProps block))
      | None => Map.get m k
      end.
Proof. intros Hcur Hrun. eapply gatherSteps_reduce_state; eassumption. Qed.
End StepSequences.

Lemma gatherSteps_returns_iff_witness :
  exists steps next h',
    gatherSteps (utils := mdxCodeBlock) (lib := lineDiff) Sample.twoSteps 0 Sample.oneFile
    = (Return (steps, next), h').
Proof.
  apply (gatherSteps_returns_iff (utils := mdxCodeBlock) (lib := lineDiff)
           Sample.twoSteps 0 Sample.oneFile _ eq_refl).
  intros block [<-|[<-|[]]]; reflexivity.
Defined.

Lemma gatherSteps_final_state_witness :
  exists m' : list (option string * FileState.t),
    (Sample.oneFile ++
       [[(Some "index.js", {| FileState.code := "b"; FileState.language := "js" |})];
        [(Some "index.js", {| FileState.code := "c"; FileState.language := "js" |})]]) !! 2
      = Some m' /\
    Map.get m' (Some "index.js")
      = Some {| FileState.code := "c"; FileState.language := "js" |}.
Proof.
  destruct (gatherSteps_final_state (utils := mdxCodeBlock) (lib := lineDiff)
              Sample.twoSteps 0 Sample.oneFile _ _ _ _ eq_refl eq_refl)
    as (m' & Hnext & _ & Hget).
  exists m'. split; [exact Hnext | exact (Hget (Some "index.js"))].
Defined.

(** ** Sections *)

Section Sections.
Context {utils : CodeBlockUtils} {lib : DiffLib}.

Lemma gatherSections_reduce_steps (l : list element) :
  forall (n : nat) (acc : list element) (cur : ref) (h : store),
    stateOf (reduce gatherSections_callback l n (acc, cur) h) =
    stateOf (gatherSteps (assembledSteps true l) cur h).
Proof.
  induction l as [|x l IH]; intros n acc cur h; [reflexivity|].
  unfold assembledSteps. cbn [List.filter]. rewrite reduce_cons.
  destruct (isMdxType x "TutorialSection") eqn:Hx.
  - rewrite gatherSections_callback_section by assumption.
    cbn [flat_map]. rewrite gatherSteps_stateOf_app.
    destruct (gatherSteps (children_of x) cur h) as [[[steps ps]|msg] h1];
      [|reflexivity].
    unfold stateOf at 3. cbn [fst snd]. apply IH.
  - rewrite gatherSections_callback_other by assumption. apply IH.
Qed.

(** X6: sections do not change how the ProjectState evolves. The state and
    store a pass of [gatherSections] ends in, or the error it throws, are
    those of [gatherSteps] run once over the children of all the sections
    taken in order. *)
Theorem gatherSections_state_as_steps
    (children : list element) (initialProjectState : ref) (h : store) :
  stateOf (gatherSections_reduce children initialProjectState h) =
  stateOf (gatherSteps
             (flat_map children_of
                (List.filter (fun child => isMdxType child "TutorialSection") children))
             initialProjectState h).
Proof. apply gatherSections_reduce_steps. Qed.

Lemma stateOf_returns (run : outcome (list element * ref) * store) :
  (exists out next h', run = (Return (out, next), h')) <->
  (exists next h', stateOf run = (Return next, h')).
Proof.
  destruct run as [[[out next]|msg] h']; unfold stateOf; cbn [fst snd]; split.
  - intros _. eauto.
  - intros _. eauto.
  - intros (? & ? & ? & ?). discriminate.
  - intros (? & ? & ?). discriminate.
Qed.

Lemma gatherSections_returns (children : list element) (r : ref) (h : store) :
  (exists elements h', gatherSections children r h = (Return elements, h')) <->
  (exists steps next h',
     gatherSteps (assembledSteps true children) r h = (Return (steps, next), h')).
Proof.
  rewrite stateOf_returns, <- (gatherSections_reduce_steps children 0 [] r h).
  fold (gatherSections_reduce children r h). rewrite <- stateOf_returns.
  unfold gatherSections, bind.
  destruct (gatherSections_reduce children r h) as [[[out next]|msg] h1]; split.
  - intros _. eauto.
  - intros _. eauto.
  - intros (? & ? & ?). discriminate.
  - intros (? & ? & ? & ?). discriminate.
Qed.

Lemma gatherSections_callback_prefix (memo : list element * ref) (child : element)
    (idx : nat) (h : store) :
  h `prefix_of` (gatherSections_callback memo child idx h).2.
Proof.
  destruct memo as [elements cur].
  destruct (isMdxType child "TutorialSection") eqn:Hc.
  - rewrite gatherSections_callback_section by assumption.
    pose proof (gatherSteps_prefix (children_of child) cur h) as Hpre.
    destruct (gatherSteps (children_of child) cur h) as [[[steps ps]|msg] h']; exact Hpre.
  - rewrite gatherSections_callback_other by assumption. reflexivity.
Qed.

Lemma gatherSections_prefix (children : list element) (r : ref) (h : store) :
  h `prefix_of` (gatherSections children r h).2.
Proof.
  pose proof (reduce_prefix _ gatherSections_callback_prefix children 0 ([], r) h) as Hpre.
  unfold gatherSections, bind. fold (gatherSections_reduce children r h) in Hpre.
  destruct (gatherSections_reduce children r h) as [[[out next]|msg] h1]; exact Hpre.
Qed.


End Sections.


(** ** The render as a whole *)

Section WholeRender.
Context {utils : CodeBlockUtils} {lib : DiffLib}.

Lemma isMdxType_exclusive (child : element) (type type' : string) :
  isMdxType child type = true -> type <> type' -> isMdxType child type' = false.
Proof.
  unfold isMdxType. intros Ht%bool_decide_eq_true Hne.
  apply bool_decide_eq_false. rewrite Ht. intros [=]. contradiction.
Qed.

Lemma withoutProject_sectioned (children : list element) :
  existsb (fun child => isMdxType child "TutorialSection") (withoutProject children) =
  existsb (fun child => isMdxType child "TutorialSection") children.
Proof.
  destruct children as [|first rest]; [reflexivity|]. simpl.
  destruct (isMdxType first "Project") eqn:Hp; [|reflexivity].
  rewrite (isMdxType_exclusive first "Project" "TutorialSection" Hp) by discriminate.
  reflexivity.
Qed.

Lemma Tutorial_validation_aborts_run (children : list element) (msg : string) (h : store) :
  validateChildren children = Throw msg -> Tutorial children h = (Throw msg, h).
Proof.
  intros Hv. unfold Tutorial. unfold bind at 1. unfold useOnMount, lift.
  rewrite Hv. reflexivity.
Qed.

(** Once the validator has accepted, the render creates the initial Map and
    hands the children, without a leading [Project], to the assembler. *)
Lemma Tutorial_run (children : list element) (h : store) :
  validateChildren children = Return tt ->
  Tutorial children h =
  (if existsb (fun child => isMdxType child "TutorialSection") children
   then gatherSections (withoutProject children) (List.length h)
   else (let* '(steps, _) := gatherSteps (withoutProject children) (List.length h) in
         ret steps))
    (h ++ [initialProjectMap children]).
Proof.
  intros Hv. rewrite Tutorial_validation_passes by assumption.
  unfold bind at 1. cbn [ret]. cbv zeta.
  destruct children as [|first rest].
  - unfold bind at 1. rewrite parseProjectStateFromChildren_run. reflexivity.
  - unfold initialProjectMap, withoutProject.
    destruct (isMdxType first "Project") eqn:Hp.
    + unfold bind at 1. rewrite parseProjectStateFromConfig_run. reflexivity.
    + unfold bind at 1. rewrite parseProjectStateFromChildren_run. reflexivity.
Qed.

(** X8: a render never changes a Map object that existed before it, whether
    it returns or throws: the store it leaves starts with the store it was
    given. *)
Theorem Tutorial_store_extends (children : list element) (h : store) :
  h `prefix_of` (Tutorial children h).2.
Proof.
  destruct (validateChildren children) as [[]|msg] eqn:Hv.
  - rewrite Tutorial_run by assumption.
    destruct (existsb _ children).
    + etrans; [|apply gatherSections_prefix]. apply prefix_app_r. reflexivity.
    + unfold bind.
      pose proof (gatherSteps_prefix (withoutProject children) (List.length h)
                    (h ++ [initialProjectMap children])) as Hpre.
      destruct (gatherSteps (withoutProject children) (List.length h)
                  (h ++ [initialProjectMap children])) as [[[steps ps]|msg] h1];
        (etrans; [|exact Hpre]); apply prefix_app_r; reflexivity.
  - rewrite (Tutorial_validation_aborts_run children msg h Hv). reflexivity.
Qed.
End WholeRender.

Section RenderOutcome.
Context {utils : CodeBlockUtils} {lib : DiffLib}.

Lemma firstWins_has (entry : CodeBlock.t -> FileState.t) (blocks : list element)
    (k : option string) :
  Map.has (firstWins entry blocks []) k = true <->
  exists block : element,
    In block blocks /\ CodeBlock.fileName (parseCodeBlockProps block) = k.
Proof.
  rewrite Map_has_get, firstWins_get. cbn [Map.get]. unfold firstBlock.
  destruct (List.find _ blocks) as [b|] eqn:Hfind.
  - apply find_some in Hfind as [Hin Hb%bool_decide_eq_true].
    split; [intros _; eauto | intros _; simpl; eauto].
  - split; [intros [x Hx]; discriminate|].
    intros (b & Hin & Hb). apply (find_none _ _ Hfind) in Hin.
    apply bool_decide_eq_false in Hin. contradiction.
Qed.

Lemma Tutorial_returns_validated (children : list element) (h : store)
    (out : list element) (h' : store) :
  Tutorial children h = (Return out, h') -> validateChildren children = Return tt.
Proof.
  intros Hrun. destruct (validateChildren children) as [[]|msg] eqn:Hv; [reflexivity|].
  rewrite (Tutorial_validation_aborts_run children msg h Hv) in Hrun. discriminate.
Qed.

Lemma Tutorial_returns_known (children : list element) (h : store) :
  validateChildren children = Return tt ->
  (exists out h', Tutorial children h = (Return out, h')) <->
  (forall block : element,
     In block (flat_map findCodeBlocksInTutorialStep
                 (assembledSteps
                    (existsb (fun child => isMdxType child "TutorialSection") children)
                    (withoutProject children))) ->
     Map.has (initialProjectMap children)
             (CodeBlock.fileName (parseCodeBlockProps block)) = true).
Proof.
  intros Hv. rewrite Tutorial_run by assumption.
  destruct (existsb _ children).
  - rewrite gatherSections_returns.
    apply gatherSteps_reduce_outcome, store_lookup_fresh.
  - unfold assembledSteps.
    rewrite <- (gatherSteps_reduce_outcome (withoutProject children) 0 [] (List.length h)
                  (h ++ [initialProjectMap children]) _ (store_lookup_fresh h _)).
    fold (gatherSteps (withoutProject children) (List.length h)
            (h ++ [initialProjectMap children])).
    unfold bind.
    destruct (gatherSteps (withoutProject children) (List.length h)
                (h ++ [initialProjectMap children])) as [[[steps ps]|msg] h1]; split.
    + intros _. eauto.
    + intros _. eexists _, _. reflexivity.
    + intros (? & ? & ?). discriminate.
    + intros (? & ? & ? & ?). discriminate.
Qed.

(** X9: once the validator has accepted a tutorial that starts with a
    [Project], the render returns exactly when every non-shell code block of
    the assembled steps (the children after the [Project], or the children
    of the sections among them) names a file that some non-shell code block
    of the [Project] defines. *)
Theorem Tutorial_explicit_returns_iff
    (configElement : element) (rest : list element) (h : store) :
  isMdxType configElement "Project" = true ->
  validateChildren (configElement :: rest) = Return tt ->
  (exists out h', Tutorial (configElement :: rest) h = (Return out, h')) <->
  forall block : element,
    In block (flat_map findCodeBlocksInTutorialStep
                (assembledSteps
                   (existsb (fun child => isMdxType child "TutorialSection") rest) rest)) ->
    exists defining : element,
      In defining (List.filter qualifies (children_of configElement)) /\
      CodeBlock.fileName (parseCodeBlockProps defining)
        = CodeBlock.fileName (parseCodeBlockProps block).
Proof.
  intros Hp Hv.
  assert (Hsec : existsb (fun child => isMdxType child "TutorialSection") (configElement :: rest)
                 = existsb (fun child => isMdxType child "TutorialSection") rest).
  { rewrite <- withoutProject_sectioned. unfold withoutProject. rewrite Hp. reflexivity. }
  rewrite (Tutorial_returns_known _ h Hv), Hsec.
  unfold withoutProject, initialProjectMap. rewrite Hp.
  split; intros Hall block Hb; apply (firstWins_has newState), Hall, Hb.
Qed.

Lemma sections_blocks_scanned (children : list element) (block : element) :
  In block (flat_map findCodeBlocksInTutorialStep (assembledSteps true children)) ->
  In block (flat_map codeBlocksOfChild children).
Proof.
  unfold assembledSteps. intros (stepElement & Hstep & Hblock)%in_flat_map.
  apply in_flat_map in Hstep as (section & Hsection & Hstep).
  apply filter_In in Hsection as [Hin Hsec].
  apply in_flat_map. exists section. split; [exact Hin|].
  unfold isMdxType in Hsec. apply bool_decide_eq_true in Hsec.
  rewrite codeBlocksOfChild_section by assumption.
  apply in_flat_map. exists stepElement. split; assumption.
Qed.

(** X10: a sectioned tutorial without a leading [Project] that the validator
    accepts always renders: the inferred ProjectState knows the file of every
    code block the sections hold, so no block is ever reported as naming an
    unknown file. *)
Theorem Tutorial_inferred_sectioned_returns
    (first : element) (rest : list element) (h : store) :
  isMdxType first "Project" = false ->
  existsb (fun child => isMdxType child "TutorialSection") (first :: rest) = true ->
  validateChildren (first :: rest) = Return tt ->
  exists out h', Tutorial (first :: rest) h = (Return out, h').
Proof.
  intros Hp Hsec Hv. apply (Tutorial_returns_known _ h Hv).
  rewrite Hsec. unfold withoutProject, initialProjectMap. rewrite Hp.
  intros block Hb. apply (firstWins_has emptyState).
  exists block. split; [|reflexivity]. apply sections_blocks_scanned, Hb.
Qed.

Lemma findIndex_none {A} (p : A -> bool) (l : list A) :
  (forall x, In x l -> p x = false) -> findIndex p l = (-1)%Z.
Proof.
  induction l as [|x l IH]; intros Hall; [reflexivity|]. simpl.
  rewrite (Hall x (or_introl eq_refl)), IH by (intros y Hy; apply Hall; right; exact Hy).
  reflexivity.
Qed.

Lemma existsb_none {A} (p : A -> bool) (l : list A) :
  (forall x, In x l -> p x = false) -> existsb p l = false.
Proof.
  induction l as [|x l IH]; intros Hall; [reflexivity|]. simpl.
  rewrite (Hall x (or_introl eq_refl)), IH by (intros y Hy; apply Hall; right; exact Hy).
  reflexivity.
Qed.

Lemma steps_blocks_scanned (children : list element) (block : element) :
  (forall child, In child children -> isMdxType child "TutorialStep" = true) ->
  In block (flat_map findCodeBlocksInTutorialStep children) ->
  In block (flat_map codeBlocksOfChild children).
Proof.
  intros Hall (stepElement & Hstep & Hblock)%in_flat_map.
  apply in_flat_map. exists stepElement. split; [exact Hstep|].
  specialize (Hall _ Hstep). unfold isMdxType in Hall. apply bool_decide_eq_true in Hall.
  rewrite codeBlocksOfChild_step by assumption. exact Hblock.
Qed.

(** X11: a tutorial whose children are all [TutorialStep]s passes the
    validator and renders without error, one output step per child. *)
Theorem Tutorial_steps_only_returns (children : list element) (h : store) :
  (forall child, In child children -> isMdxType child "TutorialStep" = true) ->
  validateChildren children = Return tt /\
  exists out h',
    Tutorial children h = (Return out, h') /\
    List.length out = List.length children.
Proof.
  intros Hall.
  assert (Hproj : forall x, In x children -> isMdxType x "Project" = false).
  { intros x Hx. apply (isMdxType_exclusive x "TutorialStep"); [auto | discriminate]. }
  assert (Hsec : existsb (fun child => isMdxType child "TutorialSection") children = false).
  { apply existsb_none. intros x Hx.
    apply (isMdxType_exclusive x "TutorialStep"); [auto | discriminate]. }
  assert (Hv : validateChildren children = Return tt).
  { unfold validateChildren. rewrite Hsec, (findIndex_none _ _ Hproj). cbn [Z.gtb Z.compare].
    unfold validateTutorialSteps.
    replace (forallb (fun child => isMdxType child "TutorialStep") (drop 1 children))
      with true; [reflexivity|].
    symmetry. apply forallb_forall. intros x Hx. apply Hall.
    destruct children; [destruct Hx | right; exact Hx]. }
  split; [exact Hv|].
  assert (Hwp : withoutProject children = children).
  { destruct children as [|first rest]; [reflexivity|]. unfold withoutProject.
    rewrite (Hproj first (or_introl eq_refl)). reflexivity. }
  destruct (proj2 (Tutorial_returns_known children h Hv)) as (out & h' & Hrun).
  { rewrite Hsec, Hwp. unfold assembledSteps. intros block Hb.
    assert (Hmap : initialProjectMap children
                   = firstWins emptyState (flat_map codeBlocksOfChild children) []).
    { destruct children as [|first rest]; [reflexivity|]. unfold initialProjectMap.
      rewrite (Hproj first (or_introl eq_refl)). reflexivity. }
    rewrite Hmap. apply (firstWins_has emptyState).
    exists block. split; [|reflexivity]. apply steps_blocks_scanned; assumption. }
  exists out, h'. split; [exact Hrun|].
  rewrite Tutorial_run, Hsec, Hwp in Hrun by assumption. unfold bind in Hrun.
  destruct (gatherSteps children (List.length h) (h ++ [initialProjectMap children]))
    as [[[steps ps]|msg] h1] eqn:Hsteps; [|discriminate].
  inversion Hrun; subst.
  apply gatherSteps_reduce_spec in Hsteps as (new & -> & Hlen & _). exact Hlen.
Qed.

(** X12: in the output of an unsectioned render a leading [Project] is gone
    and every other child is there at its place as a step: same type and
    other props, [stepNumber] its position counted from 1, as many children
    as it had, and [totalSteps] that number. *)
Theorem Tutorial_unsectioned_output (children : list element) (h : store)
    (out : list element) (h' : store) :
  existsb (fun child => isMdxType child "TutorialSection") children = false ->
  Tutorial children h = (Return out, h') ->
  List.length out = List.length (withoutProject children) /\
  forall (i : nat) (stepElement : element),
    withoutProject children !! i = Some stepElement ->
    exists step : element,
      out !! i = Some step /\
      mdxType step = mdxType stepElement /\
      attrs (props step) = attrs (props stepElement) /\
      stepNumber (props step) = Some (i + 1) /\
      List.length (children_of step) = List.length (children_of stepElement) /\
      totalSteps (props step) = Some (List.length (children_of stepElement)).
Proof.
  intros Hsec Hrun.
  pose proof (Tutorial_returns_validated _ _ _ _ Hrun) as Hv.
  rewrite Tutorial_run, Hsec in Hrun by assumption. unfold bind in Hrun.
  destruct (gatherSteps (withoutProject children) (List.length h)
              (h ++ [initialProjectMap children]))
    as [[[steps ps]|msg] h1] eqn:Hsteps; [|discriminate].
  inversion Hrun; subst.
  apply gatherSteps_reduce_spec in Hsteps as (new & -> & Hlen & Hnew).
  split; [exact Hlen|].
  intros i e Hi. destruct (Hnew i e Hi) as (cs & b & hi & nx & hi' & Hswap & Hl).
  apply swapCodeBlocks_reduce_positions in Hswap as (new' & -> & Hlen' & _).
  exists (cloneElement_step e new' (i + 1) (List.length new')).
  split; [exact Hl|]. destruct e as [t p c]. simpl in *.
  repeat split; [exact Hlen' | rewrite Hlen'; reflexivity].
Qed.
End RenderOutcome.

Lemma Tutorial_explicit_returns_iff_witness :
  exists out h',
    Tutorial (utils := mdxCodeBlock) (lib := lineDiff) Sample.example [] = (Return out, h').
Proof.
  apply (Tutorial_explicit_returns_iff (utils := mdxCodeBlock) (lib := lineDiff)
           (Sample.Project [Sample.codeBlock "index.js" "js" "a"])
           [Sample.TutorialStep [Sample.codeBlock "index.js" "js" "b"]] [] eq_refl eq_refl).
  intros block [<-|[]]. exists (Sample.codeBlock "index.js" "js" "a").
  split; [left; reflexivity | reflexivity].
Defined.

Lemma Tutorial_inferred_sectioned_returns_witness :
  exists out h',
    Tutorial (utils := mdxCodeBlock) (lib := lineDiff) Sample.sectioned [] = (Return out, h').
Proof.
  exact (Tutorial_inferred_sectioned_returns (utils := mdxCodeBlock) (lib := lineDiff)
           (Sample.text "Before") (drop 1 Sample.sectioned) [] eq_refl eq_refl eq_refl).
Defined.

Lemma Tutorial_steps_only_returns_witness :
  validateChildren Sample.twoSteps = Return tt.
Proof.
  apply (Tutorial_steps_only_returns (utils := mdxCodeBlock) (lib := lineDiff)
           Sample.twoSteps []).
  intros child [<-|[<-|[]]]; reflexivity.
Defined.

Lemma Tutorial_unsectioned_output_witness :
  exists (out : list element) (h' : store),
    Tutorial (utils := mdxCodeBlock) (lib := lineDiff) Sample.example [] = (Return out, h') /\
    List.length out = 1.
Proof.
  eexists _, _. split; [vm_compute; reflexivity|].
  exact (proj1 (Tutorial_unsectioned_output (utils := mdxCodeBlock) (lib := lineDiff)
                  Sample.example [] _ _ eq_refl eq_refl)).
Defined.

(** ** The validator *)

Lemma findIndex_found {A} (p : A -> bool) (l : list A) :
  (0 <= findIndex p l)%Z <-> existsb p l = true.
Proof.
  induction l as [|x l IH]; simpl.
  - split; [lia | discriminate].
  - destruct (p x); simpl; [split; [reflexivity | lia]|].
    destruct (Z.ltb_spec (findIndex p l) 0) as [Hlt|Hge].
    + split; [lia|]. intros He. apply IH in He. lia.
    + split; [intros _; apply IH; exact Hge | lia].
Qed.

Lemma findIndex_later {A} (p : A -> bool) (x : A) (l : list A) :
  (findIndex p (x :: l) > 0)%Z <-> p x = false /\ existsb p l = true.
Proof.
  simpl. rewrite <- findIndex_found. destruct (p x).
  - split; [lia | intros [? _]; discriminate].
  - destruct (Z.ltb_spec (findIndex p l) 0); split; try lia; intros [_ ?]; lia.
Qed.

Lemma validateSections_not_project (children : list element) :
  validateSections children <> Throw projectNotFirst.
Proof.
  unfold validateSections. destruct (negb _); [|discriminate].
  intros [=].
Qed.

Lemma validateTutorialSteps_not_project (children : list element) :
  validateTutorialSteps children <> Throw projectNotFirst.
Proof.
  unfold validateTutorialSteps. destruct (negb _); [|discriminate].
  intros [=].
Qed.

(** X13: [validateChildren] reports a misplaced [Project] exactly when the
    first child is not a [Project] and some later child is one. A second
    [Project] behind a leading one is not reported by this check. *)
Theorem validateChildren_project_not_first_iff (children : list element) :
  validateChildren children = Throw projectNotFirst <->
  exists (first : element) (rest : list element),
    children = first :: rest /\
    isMdxType first "Project" = false /\
    existsb (fun child => isMdxType child "Project") rest = true.
Proof.
  unfold validateChildren.
  destruct (Z.gtb_spec (findIndex (fun child => isMdxType child "Project") children) 0)
    as [Hgt|Hle].
  - split; [intros _|reflexivity].
    destruct children as [|first rest]; [simpl in Hgt; lia|].
    exists first, rest. split; [reflexivity|].
    apply (findIndex_later (fun child => isMdxType child "Project")). lia.
  - split.
    + intros Hthrow. exfalso. destruct (existsb _ children).
      * exact (validateSections_not_project _ Hthrow).
      * exact (validateTutorialSteps_not_project _ Hthrow).
    + intros (first & rest & -> & Hfirst & Hrest). exfalso.
      assert (findIndex (fun child => isMdxType child "Project") (first :: rest) > 0)%Z
        by (apply findIndex_later; split; assumption).
      lia.
Qed.

(** X14: in a child sequence without a [TutorialSection] and without a
    [Project] after the first position, a child after the first that is not
    a [TutorialStep] makes [validateChildren] throw the error that every
    child must be a [TutorialStep]. *)
Theorem validateChildren_child_not_step
    (children : list element) (i : nat) (child : element) :
  existsb (fun child => isMdxType child "TutorialSection") children = false ->
  (findIndex (fun child => isMdxType child "Project") children <= 0)%Z ->
  children !! i = Some child -> 1 <= i ->
  isMdxType child "TutorialStep" = false ->
  validateChildren children = Throw childNotStep.
Proof.
  intros Hsec Hproj Hi Hpos Hstep. unfold validateChildren. rewrite Hsec.
  destruct (Z.gtb_spec (findIndex (fun child => isMdxType child "Project") children) 0)
    as [Hgt|_]; [lia|].
  unfold validateTutorialSteps.
  rewrite (forallb_lookup_false _ (drop 1 children) (i - 1) child); [reflexivity| |exact Hstep].
  rewrite lookup_drop. replace (1 + (i - 1)) with i by lia. exact Hi.
Qed.

Lemma validateChildren_child_not_step_witness :
  validateChildren [Sample.TutorialStep []; Sample.text "Loose"] = Throw childNotStep.
Proof.
  apply (validateChildren_child_not_step
           [Sample.TutorialStep []; Sample.text "Loose"] 1 (Sample.text "Loose")).
  - reflexivity.
  - vm_compute. discriminate.
  - reflexivity.
  - lia.
  - reflexivity.
Defined.

(** X15: [validateChildren] accepts a child sequence exactly when no
    [Project] comes after a first child that is none, and the children after
    the first are all [TutorialStep]s if no child is a [TutorialSection],
    and none of them a [TutorialStep] if some child is. *)
Theorem validateChildren_accepts_iff (children : list element) :
  validateChildren children = Return tt <->
  (findIndex (fun child => isMdxType child "Project") children <= 0)%Z /\
  forall child : element,
    In child (drop 1 children) ->
    isMdxType child "TutorialStep" =
    negb (existsb (fun child => isMdxType child "TutorialSection") children).
Proof.
  unfold validateChildren.
  destruct (Z.gtb_spec (findIndex (fun child => isMdxType child "Project") children) 0)
    as [Hgt|Hle].
  - split; [discriminate | intros [? _]; lia].
  - destruct (existsb _ children); cbn [negb].
    + unfold validateSections.
      destruct (forallb _ (drop 1 children)) eqn:Hall; cbn [negb].
      * split; [intros _|reflexivity]. split; [exact Hle|].
        intros child Hin. rewrite forallb_forall in Hall.
        apply negb_true_iff, Hall, Hin.
      * split; [discriminate|]. intros [_ Hfalse]. exfalso.
        assert (forallb (fun child => negb (isMdxType child "TutorialStep"))
                  (drop 1 children) = true); [|congruence].
        apply forallb_forall. intros x Hx. rewrite (Hfalse x Hx). reflexivity.
    + unfold validateTutorialSteps.
      destruct (forallb _ (drop 1 children)) eqn:Hall; cbn [negb].
      * split; [intros _|reflexivity]. split; [exact Hle|].
        intros child Hin. rewrite forallb_forall in Hall. apply Hall, Hin.
      * split; [discriminate|]. intros [_ Htrue]. exfalso.
        assert (forallb (fun child => isMdxType child "TutorialStep")
                  (drop 1 children) = true); [|congruence].
        apply forallb_forall. exact Htrue.
Qed.

(** X16: of the first child [validateChildren] only asks whether it is a
    [Project] and whether it is a [TutorialSection]: two sequences that
    differ in their first child alone get the same verdict when their first
    children agree on these two questions. *)
Theorem validateChildren_first_child (first first' : element) (rest : list element) :
  isMdxType first "Project" = isMdxType first' "Project" ->
  isMdxType first "TutorialSection" = isMdxType first' "TutorialSection" ->
  validateChildren (first :: rest) = validateChildren (first' :: rest).
Proof.
  intros Hp Hs. unfold validateChildren. cbn [existsb findIndex drop].
  rewrite Hp, Hs. reflexivity.
Qed.

Lemma validateChildren_first_child_witness :
  validateChildren (Sample.TutorialStep [] :: [Sample.TutorialSection []]) =
  validateChildren (Sample.text "Intro" :: [Sample.TutorialSection []]).
Proof.
  exact (validateChildren_first_child (Sample.TutorialStep []) (Sample.text "Intro")
           [Sample.TutorialSection []] eq_refl eq_refl).
Defined.

(** * Search presets *)

Lemma append_nil_r (s : string) : s +:+ "" = s.
Proof.
  induction s as [|c s IH]; [reflexivity|].
  change (String c (s +:+ "") = String c s). rewrite IH. reflexivity.
Qed.

Lemma append_inv_l (a x y : string) : a +:+ x = a +:+ y -> x = y.
Proof.
  induction a as [|c a IH]; [auto|].
  change (String c (a +:+ x) = String c (a +:+ y) -> x = y).
  intros [= H]. auto.
Qed.

Lemma join_contains (separator : string) (items : list string) (item : string) :
  In item items -> contains item (SearchPresets.join separator items).
Proof.
  induction items as [|x items IH]; [intros []|].
  destruct items as [|y items].
  - intros [<-|[]]. exists "", "". simpl. rewrite append_nil_r. reflexivity.
  - intros [<-|Hin].
    + exists "", (separator +:+ SearchPresets.join separator (y :: items)). reflexivity.
    + destruct (IH Hin) as (before & after & Hjoin).
      exists (x +:+ separator +:+ before), after.
      change (SearchPresets.join separator (x :: y :: items))
        with (x +:+ separator +:+ SearchPresets.join separator (y :: items)).
      rewrite Hjoin, !append_assoc. reflexivity.
Qed.

(** X17: the query of the two tag presets contains every tag of the page. *)
Theorem tags_queries_contain_tags
    (page : SearchPresets.frontmatter) (tags : list string) (tag : string) :
  SearchPresets.tags page = Some tags -> In tag tags ->
  exists (anyOf allOf : string),
    SearchPresets.q (SearchPresets.tags__OR page) = Some anyOf /\
    contains tag anyOf /\
    SearchPresets.q (SearchPresets.tags__AND page) = Some allOf /\
    contains tag allOf.
Proof.
  intros Htags Hin. unfold SearchPresets.tags__OR, SearchPresets.tags__AND.
  cbn [SearchPresets.q]. rewrite Htags. cbn [default].
  eexists _, _. split; [reflexivity|]. split; [apply join_contains, Hin|].
  split; [reflexivity | apply join_contains, Hin].
Qed.

Lemma tags_queries_contain_tags_witness :
  exists (anyOf allOf : string),
    SearchPresets.q (SearchPresets.tags__OR
                       {| SearchPresets.title := Some "Guide";
                          SearchPresets.description := None;
                          SearchPresets.tags := Some ["nerdpack"; "graphql"; "cli"] |})
      = Some anyOf /\
    contains "graphql" anyOf /\
    SearchPresets.q (SearchPresets.tags__AND
                       {| SearchPresets.title := Some "Guide";
                          SearchPresets.description := None;
                          SearchPresets.tags := Some ["nerdpack"; "graphql"; "cli"] |})
      = Some allOf /\
    contains "graphql" allOf.
Proof.
  apply (tags_queries_contain_tags
           {| SearchPresets.title := Some "Guide";
              SearchPresets.description := None;
              SearchPresets.tags := Some ["nerdpack"; "graphql"; "cli"] |}
           ["nerdpack"; "graphql"; "cli"] "graphql" eq_refl).
  right. left. reflexivity.
Defined.

(** X18: the OR preset and the AND preset send the same query exactly for
    the pages with at most one tag; a page without a [tags] key counts as
    having none. *)
Theorem tags_OR_AND_same_iff (page : SearchPresets.frontmatter) :
  SearchPresets.q (SearchPresets.tags__OR page) =
  SearchPresets.q (SearchPresets.tags__AND page) <->
  List.length (default [] (SearchPresets.tags page)) <= 1.
Proof.
  unfold SearchPresets.tags__OR, SearchPresets.tags__AND. cbn [SearchPresets.q].
  destruct (default [] (SearchPresets.tags page)) as [|a [|b rest]].
  - split; [simpl; lia | reflexivity].
  - split; [simpl; lia | reflexivity].
  - split; [|simpl; lia]. intros [= Hsame]. exfalso.
    change (SearchPresets.join " OR " (a :: b :: rest))
      with (a +:+ " OR " +:+ SearchPresets.join " OR " (b :: rest)) in Hsame.
    change (SearchPresets.join " AND " (a :: b :: rest))
      with (a +:+ " AND " +:+ SearchPresets.join " AND " (b :: rest)) in Hsame.
    apply append_inv_l in Hsame. discriminate Hsame.
Qed.

(** * Navigation *)

Lemma groupedPages_from_spec (pages : list Navigation.page) :
  forall groups : gmap string (list Navigation.page),
    (forall p, In p pages -> Navigation.inherited (Navigation.groupOf p) = false) ->
    exists grouped : gmap string (list Navigation.page),
      Navigation.groupedPages_from groups pages = Return grouped /\
      forall name : string,
        grouped !! name =
        match List.filter (fun p => String.eqb (Navigation.groupOf p) name) pages with
        | [] => groups !! name
        | members => Some (default [] (groups !! name) ++ members)
        end.
Proof.
  induction pages as [|p pages IH]; intros groups Hok.
  - exists groups. split; reflexivity.
  - cbn [Navigation.groupedPages_from]. unfold Navigation.groupedPages_callback.
    rewrite (Hok p (or_introl eq_refl)).
    set (groups' := <[Navigation.groupOf p := default [] (groups !! Navigation.groupOf p) ++ [p]]> groups).
    assert (Hstep : match groups !! Navigation.groupOf p with
                    | Some members => Return (<[Navigation.groupOf p := members ++ [p]]> groups)
                    | None => Return (<[Navigation.groupOf p := [p]]> groups)
                    end = Return groups').
    { unfold groups'. destruct (groups !! Navigation.groupOf p); reflexivity. }
    rewrite Hstep.
    destruct (IH groups') as (grouped & Hrun & Hlookup).
    { intros p' Hp'. apply Hok. right. exact Hp'. }
    exists grouped. split; [exact Hrun|].
    intros name. rewrite Hlookup. cbn [List.filter].
    destruct (String.eqb_spec (Navigation.groupOf p) name) as [<-|Hne].
    + unfold groups'. rewrite lookup_insert_eq.
      destruct (List.filter _ pages); [reflexivity|].
      simpl. rewrite <- app_assoc. reflexivity.
    + unfold groups'. rewrite lookup_insert_ne by exact Hne. reflexivity.
Qed.

(** X19: grouping splits the pages by their [group], a page without one
    going under the empty name: as long as no group is called like a
    property that every object inherits, the result has, under each name,
    exactly the pages of that group in the order of the input, and no entry
    for a name that no page has. *)
Theorem groupedPages_partition (pages : list Navigation.page) :
  (forall p, In p pages -> Navigation.inherited (Navigation.groupOf p) = false) ->
  exists grouped : gmap string (list Navigation.page),
    Navigation.groupedPages pages = Return grouped /\
    forall name : string,
      grouped !! name =
      match List.filter (fun p => String.eqb (Navigation.groupOf p) name) pages with
      | [] => None
      | members => Some members
      end.
Proof.
  intros Hok. destruct (groupedPages_from_spec pages ∅ Hok) as (grouped & Hrun & Hlookup).
  exists grouped. split; [exact Hrun|].
  intros name. rewrite Hlookup, lookup_empty. reflexivity.
Qed.

Lemma groupedPages_partition_witness :
  exists grouped : gmap string (list Navigation.page),
    Navigation.groupedPages
      [ Navigation.Page "Home" (Some "/") None None;
        Navigation.Page "Guides" (Some "/guides") (Some "Build") None;
        Navigation.Page "About" None None None ]
    = Return grouped /\
    grouped !! "" = Some [ Navigation.Page "Home" (Some "/") None None;
                           Navigation.Page "About" None None None ].
Proof.
  destruct (groupedPages_partition
              [ Navigation.Page "Home" (Some "/") None None;
                Navigation.Page "Guides" (Some "/guides") (Some "Build") None;
                Navigation.Page "About" None None None ])
    as (grouped & Hrun & Hlookup).
  - intros p [<-|[<-|[<-|[]]]]; reflexivity.
  - exists grouped. split; [exact Hrun | exact (Hlookup "")].
Defined.

(** X20: a page grouped under a name that every object inherits stops the
    grouping with a [TypeError], provided no page before it stopped it. *)
Theorem groupedPages_inherited_name
    (before after : list Navigation.page) (p : Navigation.page) :
  (forall p', In p' before -> Navigation.inherited (Navigation.groupOf p') = false) ->
  Navigation.inherited (Navigation.groupOf p) = true ->
  Navigation.groupedPages (before ++ p :: after) = Throw TypeError.
Proof.
  intros Hok Hp. unfold Navigation.groupedPages.
  assert (Hgen : forall groups : gmap string (list Navigation.page),
            (forall name, Navigation.inherited name = true -> groups !! name = None) ->
            Navigation.groupedPages_from groups (before ++ p :: after) = Throw TypeError).
  { induction before as [|b before IH]; intros groups Hnone.
    - cbn [app Navigation.groupedPages_from]. unfold Navigation.groupedPages_callback.
      rewrite (Hnone _ Hp), Hp. reflexivity.
    - cbn [app Navigation.groupedPages_from]. unfold Navigation.groupedPages_callback.
      assert (Hb := Hok b (or_introl eq_refl)). rewrite Hb.
      assert (Hnext : forall v name, Navigation.inherited name = true ->
                        <[Navigation.groupOf b := v]> groups !! name = None).
      { intros v name Hname. rewrite lookup_insert_ne; [auto|]. congruence. }
      destruct (groups !! Navigation.groupOf b);
        (apply IH; [intros p' Hp'; apply Hok; right; exact Hp' | apply Hnext]). }
  apply Hgen. intros name _. apply lookup_empty.
Qed.

Lemma groupedPages_inherited_name_witness :
  Navigation.groupedPages
    [ Navigation.Page "Home" (Some "/") None None;
      Navigation.Page "API" None (Some "constructor") None ]
  = Throw TypeError.
Proof.
  apply (groupedPages_inherited_name [Navigation.Page "Home" (Some "/") None None] []
           (Navigation.Page "API" None (Some "constructor") None)).
  - intros p' [<-|[]]. reflexivity.
  - reflexivity.
Defined.

Lemma last_In {A} (l : list A) (x : A) : last l = Some x -> In x l.
Proof.
  induction l as [|y l IH]; [discriminate|].
  destruct l as [|z l]; simpl in *.
  - intros [= ->]. left. reflexivity.
  - intros Hl. right. apply IH, Hl.
Qed.

(** X21: the navigation node of the current page starts expanded: when the
    last breadcrumb is the page's name, the initial value of [isExpanded] is
    true at every depth. *)
Theorem current_page_starts_expanded
    (crumbs : list string) (depthLevel : nat) (p : Navigation.page) :
  Navigation.isCurrentPage crumbs p = true ->
  Navigation.initiallyExpanded crumbs depthLevel p = true.
Proof.
  unfold Navigation.isCurrentPage, Navigation.initiallyExpanded.
  destruct (last crumbs) as [crumb|] eqn:Hlast; [|discriminate].
  intros Heq%String.eqb_eq. subst crumb.
  apply orb_true_iff. right. apply existsb_exists.
  exists (Navigation.displayName p). split; [apply last_In, Hlast | apply String.eqb_refl].
Qed.

Lemma current_page_starts_expanded_witness :
  Navigation.initiallyExpanded ["Build apps"; "Guides"] 1
    (Navigation.Page "Guides" (Some "/guides") None None) = true.
Proof.
  exact (current_page_starts_expanded ["Build apps"; "Guides"] 1
           (Navigation.Page "Guides" (Some "/guides") None None) eq_refl).
Defined.


(** * The first child and the render *)

(** C3: a bare [TutorialStep] in front of a [TutorialSection] breaks the
    nesting rule, yet the render does not abort. [validateChildren] drops
    the first child before it checks the nesting, accepts the sequence, and
    [Tutorial] goes on to assemble and returns a node sequence: the step
    passed through as it is, then the section. *)
Theorem Tutorial_first_step_not_validated {utils : CodeBlockUtils} {lib : DiffLib}
    (h : store) :
  existsb (fun child => isMdxType child "TutorialSection") Sample.stepBeforeSection = true /\
  Sample.stepBeforeSection !! 0 = Some (Sample.TutorialStep []) /\
  isMdxType (Sample.TutorialStep []) "TutorialStep" = true /\
  validateSections Sample.stepBeforeSection = Throw stepOutsideSection /\
  validateChildren Sample.stepBeforeSection = Return tt /\
  Tutorial Sample.stepBeforeSection h =
    (Return [Sample.TutorialStep []; Sample.TutorialSection []], h ++ [[]]).
Proof.
  split; [reflexivity|]. split; [reflexivity|]. split; [reflexivity|].
  split; [reflexivity|]. split; [reflexivity|].
  rewrite Tutorial_run by reflexivity. reflexivity.
Qed.
